(** * auroravfs: a memory-backed SQLite VFS with checkpoint triggers

    Shallow embedding of [src/auroravfs.c].  A file handle ([AuroraFile]) is
    either memory-backed (the main database, served from an
    application-supplied buffer) or delegated to the underlying VFS.  The
    external collaborators (the checkpoint facility [sas_trace_*] and the
    wrapped VFS with its file methods) are modelled as a host oracle whose
    calls are logged, so that "is invoked", "exactly once" and "forwarded"
    are statements about the log. *)

From Stdlib Require Import ZArith List String Ascii Bool Lia.
From Stdlib Require Import Strings.Byte.
Import ListNotations.
Open Scope string_scope.
Open Scope Z_scope.

(** ** C integer types *)

Module CInt.

(** [size_t], [sqlite3_uint64]: value modulo 2^64. *)
Definition uint64 (x : Z) : Z := x mod 2 ^ 64.

(** [sqlite3_int64]: two's complement on 64 bits. *)
Definition sint64 (x : Z) : Z := (x + 2 ^ 63) mod 2 ^ 64 - 2 ^ 63.

(** [int]: two's complement on 32 bits. *)
Definition sint32 (x : Z) : Z := (x + 2 ^ 31) mod 2 ^ 32 - 2 ^ 31.

Definition in_int64 (x : Z) : Prop := - 2 ^ 63 <= x < 2 ^ 63.
Definition in_int32 (x : Z) : Prop := - 2 ^ 31 <= x < 2 ^ 31.

End CInt.
Import CInt.

(** ** Constants of [sqlite3.h] used by the source *)

Definition SQLITE_OK : Z := 0.
Definition SQLITE_ERROR : Z := 1.
Definition SQLITE_INTERNAL : Z := 2.
Definition SQLITE_BUSY : Z := 5.
Definition SQLITE_IOERR : Z := 10.
Definition SQLITE_NOTFOUND : Z := 12.
Definition SQLITE_FULL : Z := 13.
Definition SQLITE_CANTOPEN : Z := 14.
Definition SQLITE_ERROR_SNAPSHOT : Z := Z.lor SQLITE_ERROR (Z.shiftl 3 8).
Definition SQLITE_IOERR_SHMLOCK : Z := Z.lor SQLITE_IOERR (Z.shiftl 20 8).
Definition SQLITE_IOERR_SHMMAP : Z := Z.lor SQLITE_IOERR (Z.shiftl 21 8).
Definition SQLITE_OPEN_MAIN_DB : Z := 256.
Definition SQLITE_FCNTL_VFSNAME : Z := 12.
Definition SQLITE_IOCAP_ATOMIC : Z := 1.
Definition SQLITE_IOCAP_SAFE_APPEND : Z := 512.
Definition SQLITE_IOCAP_SEQUENTIAL : Z := 1024.
Definition SQLITE_IOCAP_POWERSAFE_OVERWRITE : Z := 4096.

(** ** File names

    The name SQLite hands to [xOpen] is a C string (the path) followed by
    the URI query parameters, which only [sqlite3_uri_*] can see; [strlen],
    [strcpy] and [strcmp] see the path alone.  Each parameter carries the
    64-bit integer the host decodes from its text (decimal or hexadecimal),
    or [None] when the text is not an integer. *)

Record filename := mkName {
  uri_path : string;
  uri_query : list (string * option Z)
}.

(** A name as the methods receive it: a pointer that may be NULL, which is
    what SQLite passes when it opens a temporary file. *)
Definition zname : Type := option filename.
Definition named (f : filename) : zname := Some f.
Coercion named : filename >-> zname.

(** Host API [sqlite3_uri_parameter]: the value of the first parameter
    named [zParam], if there is one. *)
Fixpoint sqlite3_uri_parameter (q : list (string * option Z)) (zParam : string)
  : option (option Z) :=
  match q with
  | [] => None
  | (k, v) :: q' => if String.eqb k zParam then Some v
                    else sqlite3_uri_parameter q' zParam
  end.

(** The decoded value of a parameter: present and an integer. *)
Definition uri_value (zName : zname) (zParam : string) : option Z :=
  match zName with
  | None => None
  | Some n =>
      match sqlite3_uri_parameter (uri_query n) zParam with
      | Some (Some v) => Some v
      | _ => None
      end
  end.

(** Host API [sqlite3_uri_int64(zName, zParam, bDflt)]: the integer value
    of the parameter, or [bDflt] when the name is NULL, the parameter is
    absent or it is not an integer.  The result is a [sqlite3_int64]. *)
Definition sqlite3_uri_int64 (zName : zname) (zParam : string) (bDflt : Z) : Z :=
  match uri_value zName zParam with
  | Some v => sint64 v
  | None => sint64 bDflt
  end.

(** Every decoded parameter is a [sqlite3_int64]. *)
Definition wf_filename (zName : filename) : Prop :=
  forall k v, uri_value zName k = Some v -> in_int64 v.

(** ** C strings *)

Definition uchar (c : ascii) : Z := Z.of_N (N_of_ascii c).

Definition strlen (s : string) : Z := Z.of_nat (String.length s).

(** [strcmp]: bytes are compared as [unsigned char] up to and including the
    terminator; the end of a Rocq string stands for the terminator. *)
Fixpoint strcmp (a b : string) : Z :=
  let hd s := match s with EmptyString => 0 | String c _ => uchar c end in
  match a, b with
  | String c a', String d b' =>
      if uchar c =? uchar d then (if uchar c =? 0 then 0 else strcmp a' b')
      else uchar c - uchar d
  | _, _ => hd a - hd b
  end.

(** A C string holds no NUL byte before its terminator. *)
Fixpoint no_nul (s : string) : Prop :=
  match s with
  | EmptyString => True
  | String c s' => uchar c <> 0 /\ no_nul s'
  end.

(** ** Memory

    The buffer behind [aData] belongs to the application; it is modelled
    as part of a flat byte-addressed memory. *)

Definition memory := Z -> byte.

(** [memcpy(dst, src, n)] from a source buffer given as a byte list. *)
Definition memcpy (m : memory) (dst : Z) (src : list byte) (n : Z) : memory :=
  fun a => if (dst <=? a) && (a <? dst + n)
           then nth (Z.to_nat (a - dst)) src x00
           else m a.

(** [memset(dst, c, n)]. *)
Definition memset (m : memory) (dst : Z) (c : byte) (n : Z) : memory :=
  fun a => if (dst <=? a) && (a <? dst + n) then c else m a.

(** The [n] bytes at [addr], as [memcpy] into a caller buffer reads them. *)
Definition load_bytes (m : memory) (addr : Z) (n : nat) : list byte :=
  map (fun i => m (addr + Z.of_nat i)) (seq 0 n).

(** ** The host: checkpoint facility and wrapped VFS *)

Inductive call : Type :=
| sas_trace_start (fd : Z)
| sas_trace_commit (fd : Z)
| sqlite3_malloc (nByte : Z)
| xOpen (zName : zname) (flags : Z)
| xAccess (zPath : string) (flags : Z)
| xClose
| xRead (iAmt iOfst : Z)
| xWrite (z : list byte) (iAmt iOfst : Z)
| xTruncate (size : Z)
| xSync (flags : Z)
| xFileSize
| xLock (eLock : Z)
| xUnlock (eLock : Z)
| xCheckReservedLock
| xFileControl (op : Z)
| xSectorSize
| xDeviceCharacteristics
| xShmMap (iPg pgsz bExtend : Z)
| xShmLock (offset n flags : Z)
| xShmBarrier
| xShmUnmap (deleteFlag : Z)
| xFetch (iOfst iAmt : Z)
| xUnfetch (iOfst : Z).

(** What an external call hands back: its return value, the integer or
    pointer it stored through an out-parameter, and the bytes it stored
    into a caller buffer.  For [sqlite3_malloc], [r_rc] is 0 when a block is
    returned and [r_out] is the number of bytes that block holds when that
    is more than the bytes asked for (its [sqlite3_msize]). *)
Record reply := mkReply {
  r_rc : Z;
  r_out : Z;
  r_buf : list byte
}.

(** [auroraOpen] copies a name [z] with [sqlite3_malloc(strlen(z))] and
    [strcpy], which stores [strlen(z) + 1] bytes.  The copy made after the
    calls [l] stays inside its block when the host returns a block there
    and the block holds more than the bytes asked for. *)
Definition room_at (host : list call -> call -> reply) (l : list call)
  (z : string) : Prop :=
  0 < strlen z < 2 ^ 31 /\
  r_rc (host l (sqlite3_malloc (strlen z))) = 0 /\
  strlen z < r_out (host l (sqlite3_malloc (strlen z))).

(** The names every copy of which stays inside its block. *)
Definition name_fits (host : list call -> call -> reply) (z : string) : Prop :=
  forall l, room_at host l z.

(** The names no copy of which does: the host's blocks hold the bytes
    asked for and no more. *)
Definition name_overflows (host : list call -> call -> reply) (z : string)
  : Prop :=
  strlen z < 2 ^ 31 /\
  forall l, r_out (host l (sqlite3_malloc (strlen z))) <= strlen z.

(** The process: memory, the global [mainDbName], the log of external
    calls made so far (oldest first), and whether the run has executed
    undefined behaviour (a store past the end of an allocation, a NULL
    pointer dereferenced).  Once [undefined] is set, what the model goes on
    to compute is the run in which this went unnoticed, and nothing is
    claimed of it. *)
Record world := mkWorld {
  mem : memory;
  mainDbName : option string;
  calls : list call;
  undefined : bool
}.

Definition set_mem (m : memory) (w : world) : world :=
  mkWorld m (mainDbName w) (calls w) (undefined w).
Definition set_mainDbName (n : option string) (w : world) : world :=
  mkWorld (mem w) n (calls w) (undefined w).
Definition log_call (c : call) (w : world) : world :=
  mkWorld (mem w) (mainDbName w) (calls w ++ [c]) (undefined w).
Definition set_undefined (w : world) : world :=
  mkWorld (mem w) (mainDbName w) (calls w) true.

(** ** A state monad over the process *)

Definition io (A : Type) : Type := world -> A * world.

Definition ret {A} (a : A) : io A := fun w => (a, w).
Definition bind {A B} (m : io A) (k : A -> io B) : io B :=
  fun w => let (a, w') := m w in k a w'.
Definition get_mem : io memory := fun w => (mem w, w).
Definition put_mem (m : memory) : io unit := fun w => (tt, set_mem m w).
Definition get_mainDbName : io (option string) := fun w => (mainDbName w, w).
Definition put_mainDbName (n : option string) : io unit :=
  fun w => (tt, set_mainDbName n w).

Declare Scope io_scope.
Delimit Scope io_scope with io.
Notation "x <- m ;; k" := (bind m (fun x => k))
  (at level 61, m at next level, right associativity) : io_scope.
Notation "m ;; k" := (bind m (fun _ => k))
  (at level 61, right associativity) : io_scope.
Open Scope io_scope.

(** ** An open file *)

Record AuroraFile := mkAuroraFile {
  pMethods : bool;        (* base.pMethods points at aurora_io_methods *)
  sz : Z;                 (* sqlite3_int64 *)
  szMax : Z;              (* sqlite3_int64 *)
  aData : Z;              (* unsigned char *, as an address *)
  isAurMmap : Z;          (* int *)
  fileName : option string;
  szWritten : Z;          (* sqlite_int64 *)
  szThreshold : Z;        (* sqlite_uint64 *)
  bCkptOnSync : bool;
  fd : Z                  (* int *)
}.

(** [memset(p, 0, sizeof( *p ))]. *)
Definition AuroraFile_zero : AuroraFile :=
  mkAuroraFile false 0 0 0 0 None 0 0 false 0.

Definition set_pMethods v p := mkAuroraFile v (sz p) (szMax p) (aData p)
  (isAurMmap p) (fileName p) (szWritten p) (szThreshold p) (bCkptOnSync p) (fd p).
Definition set_sz v p := mkAuroraFile (pMethods p) v (szMax p) (aData p)
  (isAurMmap p) (fileName p) (szWritten p) (szThreshold p) (bCkptOnSync p) (fd p).
Definition set_szMax v p := mkAuroraFile (pMethods p) (sz p) v (aData p)
  (isAurMmap p) (fileName p) (szWritten p) (szThreshold p) (bCkptOnSync p) (fd p).
Definition set_aData v p := mkAuroraFile (pMethods p) (sz p) (szMax p) v
  (isAurMmap p) (fileName p) (szWritten p) (szThreshold p) (bCkptOnSync p) (fd p).
Definition set_isAurMmap v p := mkAuroraFile (pMethods p) (sz p) (szMax p) (aData p)
  v (fileName p) (szWritten p) (szThreshold p) (bCkptOnSync p) (fd p).
Definition set_fileName v p := mkAuroraFile (pMethods p) (sz p) (szMax p) (aData p)
  (isAurMmap p) v (szWritten p) (szThreshold p) (bCkptOnSync p) (fd p).
Definition set_szWritten v p := mkAuroraFile (pMethods p) (sz p) (szMax p) (aData p)
  (isAurMmap p) (fileName p) v (szThreshold p) (bCkptOnSync p) (fd p).
Definition set_szThreshold v p := mkAuroraFile (pMethods p) (sz p) (szMax p) (aData p)
  (isAurMmap p) (fileName p) (szWritten p) v (bCkptOnSync p) (fd p).
Definition set_bCkptOnSync v p := mkAuroraFile (pMethods p) (sz p) (szMax p) (aData p)
  (isAurMmap p) (fileName p) (szWritten p) (szThreshold p) v (fd p).
Definition set_fd v p := mkAuroraFile (pMethods p) (sz p) (szMax p) (aData p)
  (isAurMmap p) (fileName p) (szWritten p) (szThreshold p) (bCkptOnSync p) v.

(** The size invariant of the data model. *)
Definition size_ok (p : AuroraFile) : Prop := 0 <= sz p <= szMax p.

(** What [auroraFileControl] leaves in [*pArg]. *)
Inductive fcntl_arg : Type :=
| ArgUntouched
| ArgVfsName (aData sz : Z)       (* sqlite3_mprintf("aurora(%p,%lld)", ..) *)
| ArgFromReal (r : reply).

(** ** The file methods *)

Section Aurora.

(** The host answers an external call from the log of earlier calls. *)
Variable host : list call -> call -> reply.

Definition extern (c : call) : io reply :=
  fun w => (host (calls w) c, log_call c w).

(** [sqlite3_malloc(nByte)], as the number of bytes the block it returns
    holds, 0 for NULL.  The host API returns NULL for a request of zero
    bytes or less and when it is out of memory; otherwise a block of at
    least [nByte] bytes, and how many more is the allocator's choice.
    Allocations are not entered in the log. *)
Definition sqlite3_malloc_usable (nByte : Z) : io Z :=
  fun w =>
    let r := host (calls w) (sqlite3_malloc nByte) in
    (if (nByte <=? 0) || negb (r_rc r =? 0) then 0
     else Z.max nByte (r_out r), w).

(** [dst = sqlite3_malloc(strlen(zName)); strcpy(dst, zName)]: returns what
    [dst] holds, [None] for a NULL [dst].  [strlen] of a NULL name, [strcpy]
    to a NULL block and a terminator stored past the block are undefined. *)
Definition copy_name (zName : zname) : io (option string) :=
  match zName with
  | None => fun w => (None, set_undefined w)
  | Some n =>
      let z := uri_path n in
      block <- sqlite3_malloc_usable (sint32 (strlen z)) ;;
      if block =? 0 then fun w => (None, set_undefined w)
      else if strlen z + 1 >? block then fun w => (Some z, set_undefined w)
      else ret (Some z)
  end.

Definition auroraClose (p : AuroraFile) : io Z :=
  if isAurMmap p =? 0 then
    r <- extern xClose ;; ret (r_rc r)
  else ret SQLITE_OK.

Definition auroraRead (p : AuroraFile) (iAmt iOfst : Z) : io (Z * list byte) :=
  if isAurMmap p =? 0 then
    r <- extern (xRead iAmt iOfst) ;; ret (r_rc r, r_buf r)
  else
    m <- get_mem ;;
    ret (SQLITE_OK, load_bytes m (aData p + iOfst) (Z.to_nat (uint64 iAmt))).

Definition auroraWrite (p : AuroraFile) (z : list byte) (iAmt iOfst : Z)
  : io (Z * AuroraFile) :=
  let szEnd := uint64 (sint64 (iOfst + iAmt)) in
  if isAurMmap p =? 0 then
    r <- extern (xWrite z iAmt iOfst) ;; ret (r_rc r, p)
  else if szEnd >? uint64 (szMax p) then ret (SQLITE_FULL, p)
  else
    let p := set_sz (sint64 (if szEnd >? uint64 (sz p) then szEnd
                             else uint64 (sz p))) p in
    m <- get_mem ;;
    put_mem (memcpy m (aData p + iOfst) z (uint64 iAmt)) ;;
    let p := set_szWritten (sint64 (szWritten p + iAmt)) p in
    if szThreshold p =? 0 then ret (SQLITE_OK, p)
    else if uint64 (szWritten p) >? szThreshold p then
      r <- extern (sas_trace_commit (fd p)) ;;
      if r_rc r <? 0 then ret (SQLITE_ERROR_SNAPSHOT, p)
      else ret (SQLITE_OK, set_szWritten 0 p)
    else ret (SQLITE_OK, p).

Definition auroraTruncate (p : AuroraFile) (size : Z) : io (Z * AuroraFile) :=
  if isAurMmap p =? 0 then
    r <- extern (xTruncate size) ;; ret (r_rc r, p)
  else if size >? sz p then
    if size >? szMax p then ret (SQLITE_FULL, p)
    else
      m <- get_mem ;;
      put_mem (memset m (aData p + sz p) x00 (uint64 (sint64 (size - sz p)))) ;;
      ret (SQLITE_OK, set_sz size p)
  else ret (SQLITE_OK, set_sz size p).

Definition auroraSync (p : AuroraFile) (flags : Z) : io (Z * AuroraFile) :=
  if isAurMmap p =? 0 then
    r <- extern (xSync flags) ;; ret (r_rc r, p)
  else if negb (bCkptOnSync p) || (szWritten p =? 0) then ret (SQLITE_OK, p)
  else
    r <- extern (sas_trace_commit (fd p)) ;;
    if r_rc r <? 0 then ret (SQLITE_ERROR_SNAPSHOT, p)
    else ret (SQLITE_OK, set_szWritten 0 p).

(** Returns the status and [*pSize]. *)
Definition auroraFileSize (p : AuroraFile) : io (Z * Z) :=
  if isAurMmap p =? 0 then
    r <- extern xFileSize ;; ret (r_rc r, r_out r)
  else ret (SQLITE_OK, sz p).

Definition auroraLock (p : AuroraFile) (eLock : Z) : io Z :=
  (if isAurMmap p =? 0 then _ <- extern (xLock eLock) ;; ret tt else ret tt) ;;
  ret SQLITE_OK.

Definition auroraUnlock (p : AuroraFile) (eLock : Z) : io Z :=
  (if isAurMmap p =? 0 then _ <- extern (xUnlock eLock) ;; ret tt else ret tt) ;;
  ret SQLITE_OK.

(** Returns the status and [*pResOut]. *)
Definition auroraCheckReservedLock (p : AuroraFile) : io (Z * Z) :=
  if isAurMmap p =? 0 then
    r <- extern xCheckReservedLock ;; ret (r_rc r, r_out r)
  else ret (SQLITE_OK, 0).

Definition auroraFileControl (p : AuroraFile) (op : Z) : io (Z * fcntl_arg) :=
  if isAurMmap p =? 0 then
    r <- extern (xFileControl op) ;; ret (r_rc r, ArgFromReal r)
  else if op =? SQLITE_FCNTL_VFSNAME then
    ret (SQLITE_OK, ArgVfsName (aData p) (sz p))
  else ret (SQLITE_NOTFOUND, ArgUntouched).

Definition auroraSectorSize (p : AuroraFile) : io Z :=
  if isAurMmap p =? 0 then
    r <- extern xSectorSize ;; ret (r_rc r)
  else ret 1024.

Definition auroraDeviceCharacteristics (p : AuroraFile) : io Z :=
  if isAurMmap p =? 0 then
    r <- extern xDeviceCharacteristics ;; ret (r_rc r)
  else ret (Z.lor (Z.lor (Z.lor SQLITE_IOCAP_ATOMIC
                                SQLITE_IOCAP_POWERSAFE_OVERWRITE)
                         SQLITE_IOCAP_SAFE_APPEND)
                  SQLITE_IOCAP_SEQUENTIAL).

(** Returns the status and what was stored in [*pp], if anything. *)
Definition auroraShmMap (p : AuroraFile) (iPg pgsz bExtend : Z)
  : io (Z * option Z) :=
  if isAurMmap p =? 0 then
    r <- extern (xShmMap iPg pgsz bExtend) ;; ret (r_rc r, Some (r_out r))
  else ret (SQLITE_IOERR_SHMMAP, None).

Definition auroraShmLock (p : AuroraFile) (offset n flags : Z) : io Z :=
  if isAurMmap p =? 0 then
    r <- extern (xShmLock offset n flags) ;; ret (r_rc r)
  else ret SQLITE_IOERR_SHMLOCK.

Definition auroraShmBarrier (p : AuroraFile) : io unit :=
  if isAurMmap p =? 0 then _ <- extern xShmBarrier ;; ret tt else ret tt.

Definition auroraShmUnmap (p : AuroraFile) (deleteFlag : Z) : io Z :=
  if isAurMmap p =? 0 then
    r <- extern (xShmUnmap deleteFlag) ;; ret (r_rc r)
  else ret SQLITE_OK.

(** Returns the status and [*pp]. *)
Definition auroraFetch (p : AuroraFile) (iOfst iAmt : Z) : io (Z * Z) :=
  if negb (isAurMmap p =? 0) then ret (SQLITE_OK, aData p + iOfst)
  else r <- extern (xFetch iOfst iAmt) ;; ret (r_rc r, r_out r).

Definition auroraUnfetch (p : AuroraFile) (iOfst : Z) : io Z :=
  if negb (isAurMmap p =? 0) then ret SQLITE_OK
  else r <- extern (xUnfetch iOfst) ;; ret (r_rc r).

(** ** The VFS methods *)

(** [auroraOpen] returns the status and the handle as it leaves it.  The
    wrapped [xOpen] gets the caller's [pOutFlags] pointer as it is; what it
    stores there is not tracked. *)
Definition auroraOpen (zName : zname) (flags : Z) : io (Z * AuroraFile) :=
  let p := AuroraFile_zero in
  let isAurMmap_ := Z.land flags SQLITE_OPEN_MAIN_DB in
  let p := set_isAurMmap isAurMmap_ p in
  let finish (p : AuroraFile) (rc : Z) : io (Z * AuroraFile) :=
    n <- copy_name zName ;;
    let p := set_fileName n p in
    ret (rc, if rc =? 0 then set_pMethods true p else p) in
  if negb (isAurMmap_ =? 0) then
    let p := set_aData (uint64 (sqlite3_uri_int64 zName "ptr" 0)) p in
    if aData p =? 0 then ret (SQLITE_CANTOPEN, p) else
    let p := set_sz (sqlite3_uri_int64 zName "sz" (-1)) p in
    if sz p <? 0 then ret (SQLITE_CANTOPEN, p) else
    let p := set_szMax (sqlite3_uri_int64 zName "max" (sz p)) p in
    if szMax p <? sz p then ret (SQLITE_CANTOPEN, p) else
    let p := set_fd (sint32 (sqlite3_uri_int64 zName "fd" 0)) p in
    if fd p =? 0 then ret (SQLITE_CANTOPEN, p) else
    r <- extern (sas_trace_start (fd p)) ;;
    if negb (r_rc r =? 0) then ret (SQLITE_INTERNAL, p) else
    let p := set_szThreshold (uint64 (sqlite3_uri_int64 zName "threshold" 0)) p in
    let p := set_bCkptOnSync (sqlite3_uri_int64 zName "ckptOnSync" 1 >? 0) p in
    n <- copy_name zName ;;
    put_mainDbName n ;;
    r <- extern (xOpen zName flags) ;;
    finish p (r_rc r)
  else
    r <- extern (xOpen zName flags) ;;
    finish p (r_rc r).

(** Returns the status and [*pResOut]. *)
Definition auroraAccess (zPath : string) (flags : Z) : io (Z * Z) :=
  n <- get_mainDbName ;;
  let hit := match n with
             | Some name => strcmp zPath name =? 0
             | None => false
             end in
  if hit then ret (SQLITE_OK, 1)
  else r <- extern (xAccess zPath flags) ;; ret (r_rc r, r_out r).

(** ** The method table

    One request per entry of [aurora_io_methods]; running a request gives
    the status and the handle afterwards. *)

Inductive io_request : Type :=
| ReqClose
| ReqRead (iAmt iOfst : Z)
| ReqWrite (z : list byte) (iAmt iOfst : Z)
| ReqTruncate (size : Z)
| ReqSync (flags : Z)
| ReqFileSize
| ReqLock (eLock : Z)
| ReqUnlock (eLock : Z)
| ReqCheckReservedLock
| ReqFileControl (op : Z)
| ReqSectorSize
| ReqDeviceCharacteristics
| ReqShmMap (iPg pgsz bExtend : Z)
| ReqShmLock (offset n flags : Z)
| ReqShmBarrier
| ReqShmUnmap (deleteFlag : Z)
| ReqFetch (iOfst iAmt : Z)
| ReqUnfetch (iOfst : Z).

Definition aurora_io_methods (req : io_request) (p : AuroraFile)
  : io (Z * AuroraFile) :=
  match req with
  | ReqClose => rc <- auroraClose p ;; ret (rc, p)
  | ReqRead iAmt iOfst => r <- auroraRead p iAmt iOfst ;; ret (fst r, p)
  | ReqWrite z iAmt iOfst => auroraWrite p z iAmt iOfst
  | ReqTruncate size => auroraTruncate p size
  | ReqSync flags => auroraSync p flags
  | ReqFileSize => r <- auroraFileSize p ;; ret (fst r, p)
  | ReqLock eLock => rc <- auroraLock p eLock ;; ret (rc, p)
  | ReqUnlock eLock => rc <- auroraUnlock p eLock ;; ret (rc, p)
  | ReqCheckReservedLock => r <- auroraCheckReservedLock p ;; ret (fst r, p)
  | ReqFileControl op => r <- auroraFileControl p op ;; ret (fst r, p)
  | ReqSectorSize => rc <- auroraSectorSize p ;; ret (rc, p)
  | ReqDeviceCharacteristics => rc <- auroraDeviceCharacteristics p ;; ret (rc, p)
  | ReqShmMap iPg pgsz bExtend => r <- auroraShmMap p iPg pgsz bExtend ;; ret (fst r, p)
  | ReqShmLock offset n flags => rc <- auroraShmLock p offset n flags ;; ret (rc, p)
  | ReqShmBarrier => _ <- auroraShmBarrier p ;; ret (SQLITE_OK, p)
  | ReqShmUnmap deleteFlag => rc <- auroraShmUnmap p deleteFlag ;; ret (rc, p)
  | ReqFetch iOfst iAmt => r <- auroraFetch p iOfst iAmt ;; ret (fst r, p)
  | ReqUnfetch iOfst => rc <- auroraUnfetch p iOfst ;; ret (rc, p)
  end.

End Aurora.

(** ** Scenario data used by the closed examples *)

Definition reply_rc (rc : Z) : reply := mkReply rc 0 [].

(** An allocator that never runs out of memory and rounds every request
    up to a multiple of 8 bytes. *)
Definition alloc_round8 (c : call) (otherwise : reply) : reply :=
  match c with
  | sqlite3_malloc nByte => mkReply 0 (8 * ((nByte + 7) / 8)) []
  | _ => otherwise
  end.

(** An allocator that never runs out of memory and returns blocks of the
    bytes asked for. *)
Definition alloc_exact (c : call) (otherwise : reply) : reply :=
  match c with
  | sqlite3_malloc nByte => mkReply 0 nByte []
  | _ => otherwise
  end.

(** A host where every external call succeeds. *)
Definition host_ok : list call -> call -> reply :=
  fun _ c => alloc_round8 c (reply_rc 0).

(** The same host over the allocator with exact blocks. *)
Definition host_exact : list call -> call -> reply :=
  fun _ c => alloc_exact c (reply_rc 0).

(** A host whose checkpoint commits fail and whose other calls succeed. *)
Definition host_commit_fails : list call -> call -> reply :=
  fun _ c => match c with
             | sas_trace_commit _ => reply_rc (-1)
             | _ => reply_rc 0
             end.

(** A host whose wrapped file refuses locks with [SQLITE_BUSY]. *)
Definition host_busy : list call -> call -> reply :=
  fun _ c => match c with
             | xLock _ | xUnlock _ => reply_rc SQLITE_BUSY
             | _ => reply_rc 0
             end.

(** A host whose wrapped VFS reports that no file exists. *)
Definition host_no_file : list call -> call -> reply :=
  fun _ c => match c with
             | xAccess _ _ => mkReply SQLITE_OK 0 []
             | _ => reply_rc 0
             end.

Definition mem0 : memory := fun _ => xff.
Definition world0 : world := mkWorld mem0 None [] false.

(** [file:/db?ptr=4096&sz=100&max=1000&fd=7&threshold=50] *)
Definition name_max : filename :=
  mkName "/db" [("ptr", Some 4096); ("sz", Some 100); ("max", Some 1000);
                ("fd", Some 7); ("threshold", Some 50)].

(** [file:/db?ptr=4096&sz=100&maxsz=1000&fd=7] *)
Definition name_maxsz : filename :=
  mkName "/db" [("ptr", Some 4096); ("sz", Some 100); ("maxsz", Some 1000);
                ("fd", Some 7)].

(** A memory-backed handle: 100 bytes used of 1000, threshold 50. *)
Definition file_mmap : AuroraFile :=
  mkAuroraFile true 100 1000 4096 256 (Some "/db") 0 50 true 7.

(** A delegated handle, as [auroraOpen] leaves it for a journal. *)
Definition file_real : AuroraFile :=
  mkAuroraFile true 0 0 0 0 (Some "/db-journal") 0 0 false 0.

(** ** Driving a handle

    The host reaches the file methods through the method table, one
    request after another on the same handle. *)

Section Runs.

Variable host : list call -> call -> reply.

Fixpoint run_requests (reqs : list io_request) (p : AuroraFile)
  : io (list Z * AuroraFile) :=
  match reqs with
  | [] => ret ([], p)
  | req :: reqs' =>
      r <- aurora_io_methods host req p ;;
      rs <- run_requests reqs' (snd r) ;;
      ret (fst r :: fst rs, snd rs)
  end.

End Runs.

(** The method of the wrapped file that each entry of the table names when
    the handle is delegated, with the arguments it is given. *)
Definition wrapped_call (req : io_request) : call :=
  match req with
  | ReqClose => xClose
  | ReqRead iAmt iOfst => xRead iAmt iOfst
  | ReqWrite z iAmt iOfst => xWrite z iAmt iOfst
  | ReqTruncate size => xTruncate size
  | ReqSync flags => xSync flags
  | ReqFileSize => xFileSize
  | ReqLock eLock => xLock eLock
  | ReqUnlock eLock => xUnlock eLock
  | ReqCheckReservedLock => xCheckReservedLock
  | ReqFileControl op => xFileControl op
  | ReqSectorSize => xSectorSize
  | ReqDeviceCharacteristics => xDeviceCharacteristics
  | ReqShmMap iPg pgsz bExtend => xShmMap iPg pgsz bExtend
  | ReqShmLock offset n flags => xShmLock offset n flags
  | ReqShmBarrier => xShmBarrier
  | ReqShmUnmap deleteFlag => xShmUnmap deleteFlag
  | ReqFetch iOfst iAmt => xFetch iOfst iAmt
  | ReqUnfetch iOfst => xUnfetch iOfst
  end.

(** ** Path names *)

(** Host API [sqlite3_snprintf(n, zBuf, "%s", z)]: nothing is stored when
    [n <= 0]; otherwise at most [n - 1] bytes of [z] and the terminator. *)
Definition sqlite3_snprintf_s (n : Z) (zBuf z : string) : string :=
  if n <=? 0 then zBuf else substring 0 (Z.to_nat (n - 1)) z.

(** Returns the status and the contents of [zOut]. *)
Definition auroraFullPathname (zPath : string) (nOut : Z) (zOut : string)
  : Z * string :=
  (SQLITE_OK, sqlite3_snprintf_s nOut zOut zPath).

(** ** Registration *)

Definition SQLITE_OK_LOAD_PERMANENTLY : Z := Z.lor SQLITE_OK (Z.shiftl 1 8).

(** The data fields of a [sqlite3_vfs]; [pAppData] of this VFS points at
    the VFS it wraps. *)
#[warnings="-register-all"]
Inductive sqlite3_vfs : Type :=
| mkVfs (iVersion szOsFile mxPathname : Z) (zName : string)
        (pAppData : option sqlite3_vfs).

Definition vfs_szOsFile (v : sqlite3_vfs) : Z :=
  match v with mkVfs _ s _ _ _ => s end.
Definition vfs_zName (v : sqlite3_vfs) : string :=
  match v with mkVfs _ _ _ n _ => n end.
Definition vfs_pAppData (v : sqlite3_vfs) : option sqlite3_vfs :=
  match v with mkVfs _ _ _ _ a => a end.
Definition set_vfs_szOsFile (s : Z) (v : sqlite3_vfs) : sqlite3_vfs :=
  match v with mkVfs i _ m n a => mkVfs i s m n a end.
Definition set_vfs_pAppData (a : option sqlite3_vfs) (v : sqlite3_vfs)
  : sqlite3_vfs :=
  match v with mkVfs i s m n _ => mkVfs i s m n a end.

(** The static [aurora_vfs] before registration. *)
Definition aurora_vfs : sqlite3_vfs := mkVfs 2 0 1024 "auroravfs" None.

(** [sqlite3_auroravfs_init].  [sizeof_AuroraFile] is [sizeof(AuroraFile)];
    [sqlite3_vfs_find] is what the host finds as default VFS and
    [sqlite3_vfs_register] its answer to the registration.  Returns the
    status and [aurora_vfs] as the call leaves it. *)
Definition sqlite3_auroravfs_init (sizeof_AuroraFile : Z)
  (sqlite3_vfs_find : option sqlite3_vfs)
  (sqlite3_vfs_register : sqlite3_vfs -> Z -> Z) (v : sqlite3_vfs)
  : Z * sqlite3_vfs :=
  match sqlite3_vfs_find with
  | None => (SQLITE_ERROR, v)
  | Some pOrig =>
      let v := set_vfs_pAppData (Some pOrig) v in
      let v := set_vfs_szOsFile
                 (sint32 (uint64 (vfs_szOsFile pOrig + sizeof_AuroraFile))) v in
      let rc := sqlite3_vfs_register v 1 in
      (if rc =? SQLITE_OK then SQLITE_OK_LOAD_PERMANENTLY else rc, v)
  end.

(** ** More scenario data *)

(** A host whose wrapped VFS cannot open files. *)
Definition host_open_fails : list call -> call -> reply :=
  fun _ c => match c with
             | xOpen _ _ => reply_rc SQLITE_CANTOPEN
             | _ => alloc_round8 c (reply_rc 0)
             end.

(** [file:/other?ptr=8192&sz=0&max=64&fd=9&ckptOnSync=0] *)
Definition name_other : filename :=
  mkName "/other" [("ptr", Some 8192); ("sz", Some 0); ("max", Some 64);
                   ("fd", Some 9); ("ckptOnSync", Some 0)].

(** [file:/db?ptr=4096&sz=100&fd=4294967296]: a descriptor that is not
    zero but whose low 32 bits are. *)
Definition name_fd_wide : filename :=
  mkName "/db" [("ptr", Some 4096); ("sz", Some 100);
                ("fd", Some 4294967296)].

(** The default VFS of the scenario, with a 120-byte file object. *)
Definition unix_vfs : sqlite3_vfs := mkVfs 3 120 512 "unix" None.

(** * Properties *)

(** ** The scenario handles are the ones [auroraOpen] produces *)

Example file_mmap_opened :
  auroraOpen host_ok name_max SQLITE_OPEN_MAIN_DB world0
  = (SQLITE_OK, file_mmap,
     mkWorld mem0 (Some "/db")
       [sas_trace_start 7; xOpen name_max SQLITE_OPEN_MAIN_DB] false).
Proof. reflexivity. Qed.

Example file_real_opened :
  auroraOpen host_ok (mkName "/db-journal" []) 0 world0
  = (SQLITE_OK, file_real,
     mkWorld mem0 None [xOpen (mkName "/db-journal" []) 0] false).
Proof. reflexivity. Qed.

(** Three writes under threshold 50 on the handle above: 60 bytes at 0,
    10 bytes at 60, 45 bytes at 70.  The first and the third cross the
    threshold and commit; the size stays 100 until the third write ends at
    115. *)
Example threshold_scenario :
  let '(rc1, p1, w1) := auroraWrite host_ok file_mmap (repeat x2a 60) 60 0 world0 in
  let '(rc2, p2, w2) := auroraWrite host_ok p1 (repeat x2a 10) 10 60 w1 in
  let '(rc3, p3, w3) := auroraWrite host_ok p2 (repeat x2a 45) 45 70 w2 in
  (rc1, sz p1, szWritten p1, calls w1)
  = (SQLITE_OK, 100, 0, [sas_trace_commit 7]) /\
  (rc2, sz p2, szWritten p2, calls w2)
  = (SQLITE_OK, 100, 10, [sas_trace_commit 7]) /\
  (rc3, sz p3, szWritten p3, calls w3)
  = (SQLITE_OK, 115, 0, [sas_trace_commit 7; sas_trace_commit 7]).
Proof. vm_compute. repeat split; reflexivity. Qed.

(** ** Integer conversions *)

Lemma uint64_sint64 (x : Z) : uint64 (sint64 x) = uint64 x.
Proof.
  unfold uint64, sint64.
  rewrite Zminus_mod, Zmod_mod, <- Zminus_mod.
  f_equal. lia.
Qed.

Lemma uint64_small (x : Z) : 0 <= x < 2 ^ 64 -> uint64 x = x.
Proof. intros H. unfold uint64. apply Z.mod_small. exact H. Qed.

Lemma sint64_small (x : Z) : in_int64 x -> sint64 x = x.
Proof.
  unfold in_int64, sint64. intros H.
  rewrite Z.mod_small by lia. lia.
Qed.

Lemma sint32_small (x : Z) : in_int32 x -> sint32 x = x.
Proof.
  unfold in_int32, sint32. intros H.
  rewrite Z.mod_small by lia. lia.
Qed.

Lemma uint64_range (x : Z) : 0 <= uint64 x < 2 ^ 64.
Proof. unfold uint64. apply Z.mod_pos_bound. lia. Qed.

Lemma sint64_range (x : Z) : in_int64 (sint64 x).
Proof.
  unfold in_int64, sint64.
  pose proof (Z.mod_pos_bound (x + 2 ^ 63) (2 ^ 64)). lia.
Qed.

Lemma uint64_zero_iff (x : Z) : in_int64 x -> (uint64 x = 0 <-> x = 0).
Proof.
  unfold in_int64, uint64. intros H. split; [| intros ->; reflexivity].
  intros E. destruct (Z_lt_le_dec x 0) as [Hn | Hp].
  - assert (E' : (x + 2 ^ 64) mod 2 ^ 64 = 0).
    { replace (x + 2 ^ 64) with (x + 1 * 2 ^ 64) by lia.
      rewrite Z.mod_add by lia. exact E. }
    rewrite Z.mod_small in E' by lia. lia.
  - rewrite Z.mod_small in E by lia. exact E.
Qed.

(** ** Memory *)

Lemma memcpy_inside (m : memory) (dst : Z) (src : list byte) (n a : Z) :
  dst <= a < dst + n -> memcpy m dst src n a = nth (Z.to_nat (a - dst)) src x00.
Proof.
  intros H. unfold memcpy.
  destruct (Z.leb_spec dst a); [| lia].
  destruct (Z.ltb_spec a (dst + n)); [reflexivity | lia].
Qed.

Lemma memcpy_outside (m : memory) (dst : Z) (src : list byte) (n a : Z) :
  a < dst \/ dst + n <= a -> memcpy m dst src n a = m a.
Proof.
  intros H. unfold memcpy.
  destruct (Z.leb_spec dst a); [| reflexivity].
  destruct (Z.ltb_spec a (dst + n)); [lia | reflexivity].
Qed.

Lemma memset_inside (m : memory) (dst : Z) (c : byte) (n a : Z) :
  dst <= a < dst + n -> memset m dst c n a = c.
Proof.
  intros H. unfold memset.
  destruct (Z.leb_spec dst a); [| lia].
  destruct (Z.ltb_spec a (dst + n)); [reflexivity | lia].
Qed.

Lemma memset_outside (m : memory) (dst : Z) (c : byte) (n a : Z) :
  a < dst \/ dst + n <= a -> memset m dst c n a = m a.
Proof.
  intros H. unfold memset.
  destruct (Z.leb_spec dst a); [| reflexivity].
  destruct (Z.ltb_spec a (dst + n)); [lia | reflexivity].
Qed.

Lemma load_bytes_nth (m : memory) (addr : Z) (l : list byte) :
  (forall i, (i < List.length l)%nat -> m (addr + Z.of_nat i) = nth i l x00) ->
  load_bytes m addr (List.length l) = l.
Proof.
  intros H. unfold load_bytes.
  apply nth_ext with (d := x00) (d' := x00).
  - rewrite length_map, length_seq. reflexivity.
  - intros i Hi. rewrite length_map, length_seq in Hi.
    rewrite (nth_indep _ x00 (m (addr + Z.of_nat 0%nat))) by
      (rewrite length_map, length_seq; exact Hi).
    rewrite (map_nth (fun i => m (addr + Z.of_nat i))).
    rewrite seq_nth by exact Hi. simpl. apply H. exact Hi.
Qed.

Lemma load_memcpy (m : memory) (dst : Z) (src : list byte) :
  load_bytes (memcpy m dst src (Z.of_nat (List.length src))) dst (List.length src) = src.
Proof.
  apply load_bytes_nth. intros i Hi.
  rewrite memcpy_inside by lia.
  f_equal. lia.
Qed.

(** ** Write *)

Section WriteProps.

Variable host : list call -> call -> reply.

Lemma mmap_test (p : AuroraFile) : isAurMmap p <> 0 -> (isAurMmap p =? 0) = false.
Proof. intros H. apply Z.eqb_neq. exact H. Qed.

(** The end offset the source computes in [size_t] is the mathematical sum
    for the offsets and amounts SQLite passes. *)
Lemma szEnd_exact (iAmt iOfst : Z) :
  0 <= iOfst < 2 ^ 63 -> 0 <= iAmt < 2 ^ 31 ->
  uint64 (sint64 (iOfst + iAmt)) = iOfst + iAmt.
Proof.
  intros Ho Ha. rewrite uint64_sint64. apply uint64_small. lia.
Qed.

(** Beyond capacity nothing is touched. *)
Lemma auroraWrite_full (p : AuroraFile) (z : list byte) (iAmt iOfst : Z) (w : world) :
  isAurMmap p <> 0 -> 0 <= szMax p < 2 ^ 63 ->
  0 <= iOfst < 2 ^ 63 -> 0 <= iAmt < 2 ^ 31 ->
  iOfst + iAmt > szMax p ->
  auroraWrite host p z iAmt iOfst w = (SQLITE_FULL, p, w).
Proof.
  intros Hm Hc Ho Ha Hgt. unfold auroraWrite.
  rewrite (mmap_test p Hm), szEnd_exact, (uint64_small (szMax p)) by lia.
  destruct (Z.gtb_spec (iOfst + iAmt) (szMax p)); [reflexivity | lia].
Qed.

(** Within capacity: the whole effect of the call, with the counter still
    in its machine form. *)
Lemma auroraWrite_fits (p : AuroraFile) (z : list byte) (iAmt iOfst : Z) (w : world) :
  isAurMmap p <> 0 -> size_ok p -> szMax p < 2 ^ 63 ->
  0 <= iOfst < 2 ^ 63 -> 0 <= iAmt < 2 ^ 31 ->
  iOfst + iAmt <= szMax p ->
  auroraWrite host p z iAmt iOfst w =
    let p1 := set_szWritten (sint64 (szWritten p + iAmt))
                (set_sz (Z.max (sz p) (iOfst + iAmt)) p) in
    let w1 := set_mem (memcpy (mem w) (aData p + iOfst) z iAmt) w in
    let commit := sas_trace_commit (fd p) in
    if szThreshold p =? 0 then (SQLITE_OK, p1, w1)
    else if uint64 (sint64 (szWritten p + iAmt)) >? szThreshold p then
      if r_rc (host (calls w) commit) <? 0
      then (SQLITE_ERROR_SNAPSHOT, p1, log_call commit w1)
      else (SQLITE_OK, set_szWritten 0 p1, log_call commit w1)
    else (SQLITE_OK, p1, w1).
Proof.
  intros Hm [Hs0 Hs1] Hc Ho Ha Hle. unfold auroraWrite.
  rewrite (mmap_test p Hm), szEnd_exact by lia.
  rewrite (uint64_small (szMax p)), (uint64_small (sz p)), (uint64_small iAmt) by lia.
  destruct (Z.gtb_spec (iOfst + iAmt) (szMax p)) as [Hgt | _]; [lia |].
  assert (Hmax : sint64 (if iOfst + iAmt >? sz p then iOfst + iAmt else sz p)
                 = Z.max (sz p) (iOfst + iAmt)).
  { destruct (Z.gtb_spec (iOfst + iAmt) (sz p));
      rewrite sint64_small by (unfold in_int64; lia); lia. }
  rewrite Hmax. cbn -[Z.max sint64 uint64 Z.pow].
  unfold bind, get_mem, put_mem, ret, extern. cbn -[Z.max sint64 uint64 Z.pow].
  destruct (szThreshold p =? 0); [reflexivity |].
  destruct (uint64 (sint64 (szWritten p + iAmt)) >? szThreshold p); [| reflexivity].
  cbn [calls set_mem].
  destruct (r_rc (host (calls w) (sas_trace_commit (fd p))) <? 0); reflexivity.
Qed.

(** C1.  A memory-backed write that ends within capacity succeeds unless a
    checkpoint commit it triggers fails; afterwards the size is the larger
    of the old size and the end offset, and the buffer holds the written
    bytes at the offset.  A write that ends beyond capacity returns
    [SQLITE_FULL] and leaves the handle (size, counter) and the process
    (buffer, log) as they were. *)
Theorem auroraWrite_capacity
  (p : AuroraFile) (z : list byte) (iAmt iOfst : Z) (w : world) :
  isAurMmap p <> 0 -> size_ok p -> szMax p < 2 ^ 63 ->
  0 <= iOfst < 2 ^ 63 -> iAmt = Z.of_nat (List.length z) -> iAmt < 2 ^ 31 ->
  (iOfst + iAmt <= szMax p ->
   let '(rc, p', w') := auroraWrite host p z iAmt iOfst w in
   (rc = SQLITE_OK \/
    rc = SQLITE_ERROR_SNAPSHOT /\
    calls w' = (calls w ++ [sas_trace_commit (fd p)])%list /\
    r_rc (host (calls w) (sas_trace_commit (fd p))) < 0) /\
   sz p' = Z.max (sz p) (iOfst + iAmt) /\
   sz p' >= iOfst + iAmt /\
   szMax p' = szMax p /\
   load_bytes (mem w') (aData p + iOfst) (List.length z) = z) /\
  (iOfst + iAmt > szMax p ->
   auroraWrite host p z iAmt iOfst w = (SQLITE_FULL, p, w)).
Proof.
  intros Hm Hs Hc Ho Hz Ha. split.
  - intros Hle. rewrite auroraWrite_fits by (try assumption; lia).
    cbv zeta.
    assert (Hbuf : load_bytes (memcpy (mem w) (aData p + iOfst) z iAmt)
                     (aData p + iOfst) (List.length z) = z).
    { rewrite Hz. apply load_memcpy. }
    destruct (szThreshold p =? 0).
    { cbn -[Z.max]. split; [left; reflexivity | repeat split; auto; lia]. }
    destruct (uint64 (sint64 (szWritten p + iAmt)) >? szThreshold p).
    2:{ cbn -[Z.max]. split; [left; reflexivity | repeat split; auto; lia]. }
    destruct (Z.ltb_spec (r_rc (host (calls w) (sas_trace_commit (fd p)))) 0).
    + cbn -[Z.max]. split; [right | repeat split; auto; lia].
      split; [reflexivity | split; [reflexivity | assumption]].
    + cbn -[Z.max]. split; [left; reflexivity | repeat split; auto; lia].
  - intros Hgt. destruct Hs. apply auroraWrite_full; try assumption; lia.
Qed.

(** C2.  Checkpoint policy of a memory-backed write within capacity.  The
    bytes are copied and the size updated in every case.  With a zero
    threshold no commit is made.  With a positive threshold exactly one
    commit is made when the counter, after adding the amount, exceeds the
    threshold, and none otherwise.  A commit that succeeds resets the
    counter and the write returns [SQLITE_OK]; a commit that fails makes
    the write return [SQLITE_ERROR_SNAPSHOT] with the counter not reset. *)
Theorem auroraWrite_checkpoint
  (p : AuroraFile) (z : list byte) (iAmt iOfst : Z) (w : world) :
  isAurMmap p <> 0 -> size_ok p -> szMax p < 2 ^ 63 ->
  0 <= iOfst < 2 ^ 63 -> iAmt = Z.of_nat (List.length z) -> iAmt < 2 ^ 31 ->
  iOfst + iAmt <= szMax p ->
  0 <= szWritten p -> szWritten p + iAmt < 2 ^ 63 -> 0 <= szThreshold p ->
  let n := szWritten p + iAmt in
  let commit := sas_trace_commit (fd p) in
  let '(rc, p', w') := auroraWrite host p z iAmt iOfst w in
  (mem w' = memcpy (mem w) (aData p + iOfst) z iAmt /\
   sz p' = Z.max (sz p) (iOfst + iAmt)) /\
  (szThreshold p = 0 ->
   rc = SQLITE_OK /\ calls w' = calls w /\ szWritten p' = n) /\
  (szThreshold p > 0 -> n <= szThreshold p ->
   rc = SQLITE_OK /\ calls w' = calls w /\ szWritten p' = n) /\
  (szThreshold p > 0 -> n > szThreshold p ->
   calls w' = (calls w ++ [commit])%list /\
   (0 <= r_rc (host (calls w) commit) -> rc = SQLITE_OK /\ szWritten p' = 0) /\
   (r_rc (host (calls w) commit) < 0 ->
    rc = SQLITE_ERROR_SNAPSHOT /\ szWritten p' = n)).
Proof.
  intros Hm Hs Hc Ho Hz Ha Hle Hw0 Hw1 Ht n commit.
  rewrite auroraWrite_fits by (try assumption; lia).
  cbv zeta. fold n. fold commit.
  rewrite (sint64_small n) by (unfold in_int64, n; lia).
  rewrite (uint64_small n) by (unfold n; lia).
  destruct (Z.eqb_spec (szThreshold p) 0) as [Ht0 | Ht0].
  { cbn -[Z.max]. repeat split; auto; lia. }
  destruct (Z.gtb_spec n (szThreshold p)) as [Hgt | Hngt].
  2:{ cbn -[Z.max]. repeat split; auto; lia. }
  destruct (Z.ltb_spec (r_rc (host (calls w) commit)) 0) as [Hfail | Hgood].
  - cbn -[Z.max]. repeat split; auto; lia.
  - cbn -[Z.max]. repeat split; auto; lia.
Qed.

End WriteProps.

Lemma auroraWrite_capacity_witness :
  (let '(rc, p', w') :=
     auroraWrite host_ok file_mmap [x01; x02; x03] 3 200 world0 in
   sz p' = 203 /\ load_bytes (mem w') 4296 3 = [x01; x02; x03]) /\
  auroraWrite host_ok file_mmap [x01; x02; x03] 3 998 world0
  = (SQLITE_FULL, file_mmap, world0).
Proof.
  split.
  - pose proof (proj1 (auroraWrite_capacity host_ok file_mmap [x01; x02; x03]
                  3 200 world0
                  ltac:(simpl; lia) ltac:(unfold size_ok; simpl; lia)
                  ltac:(simpl; lia) ltac:(lia) ltac:(reflexivity) ltac:(lia))
                ltac:(simpl; lia)) as H.
    destruct (auroraWrite host_ok file_mmap [x01; x02; x03] 3 200 world0)
      as [[rc p'] w'].
    destruct H as (_ & Hsz & _ & _ & Hbuf).
    split; [exact Hsz | exact Hbuf].
  - apply (auroraWrite_capacity host_ok file_mmap [x01; x02; x03] 3 998 world0);
      try (unfold size_ok; simpl; lia); reflexivity.
Defined.

Lemma auroraWrite_checkpoint_witness :
  (let '(rc, p', w') :=
     auroraWrite host_ok file_mmap (repeat x2a 60) 60 0 world0 in
   rc = SQLITE_OK /\ szWritten p' = 0 /\ calls w' = [sas_trace_commit 7]) /\
  (let '(rc, p', w') :=
     auroraWrite host_commit_fails file_mmap (repeat x2a 60) 60 0 world0 in
   rc = SQLITE_ERROR_SNAPSHOT /\ szWritten p' = 60 /\
   calls w' = [sas_trace_commit 7]).
Proof.
  split.
  - pose proof (auroraWrite_checkpoint host_ok file_mmap (repeat x2a 60)
                  60 0 world0
                  ltac:(simpl; lia) ltac:(unfold size_ok; simpl; lia)
                  ltac:(simpl; lia) ltac:(lia) ltac:(reflexivity) ltac:(lia)
                  ltac:(simpl; lia) ltac:(simpl; lia) ltac:(simpl; lia)
                  ltac:(simpl; lia)) as H.
    cbv zeta in H.
    destruct (auroraWrite host_ok file_mmap (repeat x2a 60) 60 0 world0)
      as [[rc p'] w'].
    destruct H as (_ & _ & _ & H).
    destruct (H ltac:(simpl; lia) ltac:(simpl; lia)) as (Hc & Hok & _).
    destruct (Hok ltac:(simpl; lia)) as [Hrc Hw].
    repeat split; assumption.
  - pose proof (auroraWrite_checkpoint host_commit_fails file_mmap
                  (repeat x2a 60) 60 0 world0
                  ltac:(simpl; lia) ltac:(unfold size_ok; simpl; lia)
                  ltac:(simpl; lia) ltac:(lia) ltac:(reflexivity) ltac:(lia)
                  ltac:(simpl; lia) ltac:(simpl; lia) ltac:(simpl; lia)
                  ltac:(simpl; lia)) as H.
    cbv zeta in H.
    destruct (auroraWrite host_commit_fails file_mmap (repeat x2a 60) 60 0 world0)
      as [[rc p'] w'].
    destruct H as (_ & _ & _ & H).
    destruct (H ltac:(simpl; lia) ltac:(simpl; lia)) as (Hc & _ & Hbad).
    destruct (Hbad ltac:(simpl; lia)) as [Hrc Hw].
    repeat split; assumption.
Defined.

(** ** Truncate and sync *)

Section TruncateSyncProps.

Variable host : list call -> call -> reply.

(** C3.  Memory-backed truncate.  Growing within capacity zero-fills the
    bytes from the old size to the new size, leaves every other byte, and
    sets the size; asking for more than the capacity returns [SQLITE_FULL]
    with handle and buffer untouched; a new size not above the current one
    only sets the size and clears nothing. *)
Theorem auroraTruncate_cases (p : AuroraFile) (size : Z) (w : world) :
  isAurMmap p <> 0 -> size_ok p -> szMax p < 2 ^ 63 ->
  (sz p < size <= szMax p ->
   let '(rc, p', w') := auroraTruncate host p size w in
   rc = SQLITE_OK /\ p' = set_sz size p /\ sz p' = size /\
   (forall a, aData p + sz p <= a < aData p + size -> mem w' a = x00) /\
   (forall a, a < aData p + sz p \/ aData p + size <= a -> mem w' a = mem w a) /\
   calls w' = calls w) /\
  (size > szMax p -> auroraTruncate host p size w = (SQLITE_FULL, p, w)) /\
  (size <= sz p -> auroraTruncate host p size w = (SQLITE_OK, set_sz size p, w)).
Proof.
  intros Hm [Hs0 Hs1] Hc. unfold auroraTruncate. rewrite (mmap_test p Hm).
  split; [| split].
  - intros [Hlo Hhi].
    destruct (Z.gtb_spec size (sz p)) as [_ | Hle]; [| lia].
    destruct (Z.gtb_spec size (szMax p)) as [Hgt | _]; [lia |].
    rewrite uint64_sint64, uint64_small by lia.
    unfold bind, get_mem, put_mem, ret. cbn [mem set_mem calls sz set_sz].
    repeat split; try reflexivity.
    + intros a Ha. apply memset_inside. lia.
    + intros a Ha. apply memset_outside. lia.
  - intros Hgt.
    destruct (Z.gtb_spec size (sz p)) as [_ | Hle]; [| lia].
    destruct (Z.gtb_spec size (szMax p)) as [_ | Hle]; [reflexivity | lia].
  - intros Hle.
    destruct (Z.gtb_spec size (sz p)) as [Hgt | _]; [lia | reflexivity].
Qed.

(** C4.  Memory-backed sync.  A commit is made exactly when checkpointing
    on sync is enabled and bytes are pending; it resets the counter when it
    succeeds and makes sync return [SQLITE_ERROR_SNAPSHOT], counter kept,
    when it fails.  Otherwise, and always when checkpointing on sync is
    off, sync does nothing and returns [SQLITE_OK]. *)
Theorem auroraSync_checkpoint (p : AuroraFile) (flags : Z) (w : world) :
  isAurMmap p <> 0 -> 0 <= szWritten p ->
  let commit := sas_trace_commit (fd p) in
  (bCkptOnSync p = true /\ szWritten p > 0 ->
   (0 <= r_rc (host (calls w) commit) ->
    auroraSync host p flags w
    = (SQLITE_OK, set_szWritten 0 p, log_call commit w)) /\
   (r_rc (host (calls w) commit) < 0 ->
    auroraSync host p flags w
    = (SQLITE_ERROR_SNAPSHOT, p, log_call commit w))) /\
  (~ (bCkptOnSync p = true /\ szWritten p > 0) ->
   auroraSync host p flags w = (SQLITE_OK, p, w)) /\
  (bCkptOnSync p = false -> auroraSync host p flags w = (SQLITE_OK, p, w)).
Proof.
  intros Hm Hw commit. unfold auroraSync. rewrite (mmap_test p Hm).
  split; [| split].
  - intros [Hon Hpend]. rewrite Hon.
    destruct (Z.eqb_spec (szWritten p) 0) as [E | _]; [lia |].
    cbn [negb orb]. unfold bind, extern, ret. fold commit.
    split; intros Hrc.
    + destruct (Z.ltb_spec (r_rc (host (calls w) commit)) 0); [lia | reflexivity].
    + destruct (Z.ltb_spec (r_rc (host (calls w) commit)) 0); [reflexivity | lia].
  - intros Hno.
    destruct (bCkptOnSync p); [| reflexivity].
    destruct (Z.eqb_spec (szWritten p) 0) as [_ | Hne]; [reflexivity |].
    exfalso. apply Hno. split; [reflexivity | lia].
  - intros Hoff. rewrite Hoff. reflexivity.
Qed.

End TruncateSyncProps.

Lemma auroraTruncate_cases_witness :
  (let '(rc, p', w') := auroraTruncate host_ok file_mmap 300 world0 in
   rc = SQLITE_OK /\ sz p' = 300 /\ mem w' (4096 + 100) = x00 /\
   mem w' (4096 + 299) = x00 /\ mem w' (4096 + 99) = xff) /\
  auroraTruncate host_ok file_mmap 1001 world0 = (SQLITE_FULL, file_mmap, world0) /\
  auroraTruncate host_ok file_mmap 40 world0
  = (SQLITE_OK, set_sz 40 file_mmap, world0).
Proof.
  pose proof (auroraTruncate_cases host_ok file_mmap 300 world0
                ltac:(simpl; lia) ltac:(unfold size_ok; simpl; lia)
                ltac:(simpl; lia)) as (Hgrow & _ & _).
  pose proof (auroraTruncate_cases host_ok file_mmap 1001 world0
                ltac:(simpl; lia) ltac:(unfold size_ok; simpl; lia)
                ltac:(simpl; lia)) as (_ & Hfull & _).
  pose proof (auroraTruncate_cases host_ok file_mmap 40 world0
                ltac:(simpl; lia) ltac:(unfold size_ok; simpl; lia)
                ltac:(simpl; lia)) as (_ & _ & Hshrink).
  split; [| split].
  - specialize (Hgrow ltac:(simpl; lia)).
    destruct (auroraTruncate host_ok file_mmap 300 world0) as [[rc p'] w'].
    destruct Hgrow as (Hrc & _ & Hsz & Hz & Hk & _).
    repeat split; try assumption.
    + apply Hz. simpl. lia.
    + apply Hz. simpl. lia.
    + rewrite Hk by (simpl; lia). reflexivity.
  - apply Hfull. simpl. lia.
  - apply Hshrink. simpl. lia.
Defined.

Lemma auroraSync_checkpoint_witness :
  auroraSync host_ok (set_szWritten 10 file_mmap) 2 world0
  = (SQLITE_OK, set_szWritten 0 (set_szWritten 10 file_mmap),
     log_call (sas_trace_commit 7) world0) /\
  auroraSync host_commit_fails (set_szWritten 10 file_mmap) 2 world0
  = (SQLITE_ERROR_SNAPSHOT, set_szWritten 10 file_mmap,
     log_call (sas_trace_commit 7) world0) /\
  auroraSync host_ok file_mmap 2 world0 = (SQLITE_OK, file_mmap, world0).
Proof.
  split; [| split].
  - apply (auroraSync_checkpoint host_ok (set_szWritten 10 file_mmap) 2 world0
             ltac:(simpl; lia) ltac:(simpl; lia));
      [split; [reflexivity | simpl; lia] | simpl; lia].
  - apply (auroraSync_checkpoint host_commit_fails (set_szWritten 10 file_mmap)
             2 world0 ltac:(simpl; lia) ltac:(simpl; lia));
      [split; [reflexivity | simpl; lia] | simpl; lia].
  - apply (proj1 (proj2 (auroraSync_checkpoint host_ok file_mmap 2 world0
                            ltac:(simpl; lia) ltac:(simpl; lia)))).
    simpl. intros [_ H]. lia.
Defined.

(** ** Open *)

Lemma sint32_sint64 (x : Z) : sint32 (sint64 x) = sint32 x.
Proof.
  unfold sint32, sint64. f_equal.
  replace ((x + 2 ^ 63) mod 2 ^ 64 - 2 ^ 63 + 2 ^ 31)
    with ((x + 2 ^ 63) mod 2 ^ 64 + 2 ^ 31 + (- 2 ^ 31) * 2 ^ 32) by lia.
  rewrite Z.mod_add by lia.
  replace (2 ^ 64) with (2 ^ 32 * 2 ^ 32) by lia.
  rewrite Z.add_mod, Z.rem_mul_r, Z.add_mod by lia.
  rewrite (Z.add_mod x (2 ^ 31)) by lia.
  replace ((x + 2 ^ 63) mod 2 ^ 32) with (x mod 2 ^ 32).
  2:{ replace (x + 2 ^ 63) with (x + 2 ^ 31 * 2 ^ 32) by lia.
      rewrite Z.mod_add by lia. reflexivity. }
  rewrite Z.mul_comm, Z.mod_add by lia.
  rewrite !Zmod_mod. reflexivity.
Qed.

Section OpenProps.

Variable host : list call -> call -> reply.

Lemma uri_int64_some (zName : filename) (k : string) (d v : Z) :
  uri_value zName k = Some v -> sqlite3_uri_int64 zName k d = sint64 v.
Proof. intros E. unfold sqlite3_uri_int64. rewrite E. reflexivity. Qed.

Lemma uri_int64_none (zName : filename) (k : string) (d : Z) :
  uri_value zName k = None -> sqlite3_uri_int64 zName k d = sint64 d.
Proof. intros E. unfold sqlite3_uri_int64. rewrite E. reflexivity. Qed.

(** [p->aData == 0] holds exactly when [ptr] is absent or zero. *)
Lemma ptr_check (zName : filename) :
  wf_filename zName ->
  uint64 (sqlite3_uri_int64 zName "ptr" 0) = 0 <->
  uri_value zName "ptr" = None \/ uri_value zName "ptr" = Some 0.
Proof.
  intros Hwf. destruct (uri_value zName "ptr") as [v |] eqn:E.
  - rewrite (uri_int64_some _ _ _ _ E), uint64_sint64.
    rewrite (uint64_zero_iff v (Hwf _ _ E)).
    split; [intros ->; right; reflexivity | intros [H | H]; congruence].
  - rewrite (uri_int64_none _ _ _ E). split; [left; reflexivity | reflexivity].
Qed.

(** [p->sz < 0] holds exactly when [sz] is absent or negative. *)
Lemma sz_check (zName : filename) :
  wf_filename zName ->
  sqlite3_uri_int64 zName "sz" (-1) < 0 <->
  uri_value zName "sz" = None \/
  exists v, uri_value zName "sz" = Some v /\ v < 0.
Proof.
  intros Hwf. destruct (uri_value zName "sz") as [v |] eqn:E.
  - rewrite (uri_int64_some _ _ _ _ E), (sint64_small v (Hwf _ _ E)).
    split.
    + intros H. right. exists v. split; [reflexivity | exact H].
    + intros [H | (v' & H & Hv)]; congruence.
  - rewrite (uri_int64_none _ _ _ E). split; [left; reflexivity |].
    intros _. reflexivity.
Qed.

(** [p->fd == 0] holds exactly when [fd] is absent or is zero as a C
    [int], that is, when its low 32 bits are zero. *)
Lemma fd_check (zName : filename) :
  sint32 (sqlite3_uri_int64 zName "fd" 0) = 0 <->
  uri_value zName "fd" = None \/
  exists v, uri_value zName "fd" = Some v /\ sint32 v = 0.
Proof.
  destruct (uri_value zName "fd") as [v |] eqn:E.
  - rewrite (uri_int64_some _ _ _ _ E), sint32_sint64.
    split.
    + intros H. right. exists v. split; [reflexivity | exact H].
    + intros [H | (v' & H & Hv)]; congruence.
  - rewrite (uri_int64_none _ _ _ E). split; [left; reflexivity | reflexivity].
Qed.

Lemma app_cons_neq {A} (l l' : list A) (x : A) : (l ++ x :: l')%list <> l.
Proof.
  intros E. apply (f_equal (@List.length A)) in E.
  rewrite length_app in E. simpl in E. lia.
Qed.

(** The copy of a name leaves memory, the recorded name and the log alone.
    When the block has room for the terminator, the copy is the path and
    nothing undefined happens; when the block holds the bytes asked for
    and no more, the copy is undefined. *)
Lemma copy_name_run (zName : filename) (w : world) :
  exists n u,
    copy_name host zName w
    = (n, mkWorld (mem w) (mainDbName w) (calls w) u) /\
    (room_at host (calls w) (uri_path zName) ->
     n = Some (uri_path zName) /\ u = undefined w) /\
    (strlen (uri_path zName) < 2 ^ 31 ->
     r_out (host (calls w) (sqlite3_malloc (strlen (uri_path zName))))
     <= strlen (uri_path zName) ->
     u = true) /\
    (undefined w = true -> u = true).
Proof.
  unfold copy_name, named, sqlite3_malloc_usable, bind, ret, set_undefined,
    room_at.
  cbv beta iota zeta.
  set (len := strlen (uri_path zName)).
  assert (Hlen : 0 <= len) by (unfold len, strlen; lia).
  assert (Hsmall : len < 2 ^ 31 -> sint32 len = len)
    by (intros H; apply sint32_small; unfold in_int32; lia).
  destruct ((sint32 len <=? 0)
            || negb (r_rc (host (calls w) (sqlite3_malloc (sint32 len))) =? 0))
    eqn:Enull.
  - cbn [Z.eqb]. exists None, true. split; [reflexivity |].
    split; [| split; reflexivity].
    intros (Hr & Hrc & _). exfalso.
    rewrite (Hsmall (proj2 Hr)), Hrc in Enull. cbn [Z.eqb negb] in Enull.
    rewrite orb_false_r in Enull. apply Z.leb_le in Enull. lia.
  - apply orb_false_elim in Enull. destruct Enull as [Epos _].
    apply Z.leb_gt in Epos.
    destruct (Z.eqb_spec
                (Z.max (sint32 len)
                   (r_out (host (calls w) (sqlite3_malloc (sint32 len))))) 0)
      as [E0 | E0]; [exfalso; lia |].
    destruct (Z.gtb_spec (len + 1)
                (Z.max (sint32 len)
                   (r_out (host (calls w) (sqlite3_malloc (sint32 len))))))
      as [Eov | Efit].
    + exists (Some (uri_path zName)), true. split; [reflexivity |].
      split; [| split; reflexivity].
      intros (Hr & _ & Hroom). exfalso.
      rewrite (Hsmall (proj2 Hr)) in Eov. lia.
    + exists (Some (uri_path zName)), (undefined w).
      split; [destruct w; reflexivity |].
      split; [intros _; split; reflexivity | split; [| intros H; exact H]].
      intros Hr Hm. exfalso. rewrite (Hsmall Hr) in Efit. lia.
Qed.

(** The six ways a memory-backed open of a named file can end: at one of
    the four configuration checks, in that order, with [SQLITE_CANTOPEN] and
    no external call; at the session start with [SQLITE_INTERNAL]; or after
    the wrapped open, with its status, the name copied twice on the way. *)
Lemma auroraOpen_mmap_cases (zName : filename) (flags : Z) (w : world) :
  Z.land flags SQLITE_OPEN_MAIN_DB <> 0 ->
  let vptr := uint64 (sqlite3_uri_int64 zName "ptr" 0) in
  let vsz := sqlite3_uri_int64 zName "sz" (-1) in
  let cap := sqlite3_uri_int64 zName "max" vsz in
  let vfd := sint32 (sqlite3_uri_int64 zName "fd" 0) in
  let start := sas_trace_start vfd in
  let p1 := set_aData vptr
              (set_isAurMmap (Z.land flags SQLITE_OPEN_MAIN_DB) AuroraFile_zero) in
  let p2 := set_sz vsz p1 in
  let p3 := set_szMax cap p2 in
  let p4 := set_fd vfd p3 in
  let p6 := set_bCkptOnSync (sqlite3_uri_int64 zName "ckptOnSync" 1 >? 0)
              (set_szThreshold (uint64 (sqlite3_uri_int64 zName "threshold" 0))
                 p4) in
  let rcx := r_rc (host (calls w ++ [start])%list (xOpen zName flags)) in
  (vptr = 0 /\ auroraOpen host zName flags w = (SQLITE_CANTOPEN, p1, w)) \/
  (vptr <> 0 /\ vsz < 0 /\
   auroraOpen host zName flags w = (SQLITE_CANTOPEN, p2, w)) \/
  (vptr <> 0 /\ 0 <= vsz /\ cap < vsz /\
   auroraOpen host zName flags w = (SQLITE_CANTOPEN, p3, w)) \/
  (vptr <> 0 /\ 0 <= vsz <= cap /\ vfd = 0 /\
   auroraOpen host zName flags w = (SQLITE_CANTOPEN, p4, w)) \/
  (vptr <> 0 /\ 0 <= vsz <= cap /\ vfd <> 0 /\
   r_rc (host (calls w) start) <> 0 /\
   auroraOpen host zName flags w = (SQLITE_INTERNAL, p4, log_call start w)) \/
  (vptr <> 0 /\ 0 <= vsz <= cap /\ vfd <> 0 /\
   r_rc (host (calls w) start) = 0 /\
   exists n1 n2 u,
     auroraOpen host zName flags w
     = (rcx,
        (if rcx =? 0 then set_pMethods true (set_fileName n2 p6)
         else set_fileName n2 p6),
        mkWorld (mem w) n1 (calls w ++ [start; xOpen zName flags])%list u) /\
     (name_fits host (uri_path zName) ->
      n1 = Some (uri_path zName) /\ n2 = Some (uri_path zName) /\
      u = undefined w) /\
     (name_overflows host (uri_path zName) -> u = true)).
Proof.
  intros Hflag. cbv zeta. unfold auroraOpen.
  apply Z.eqb_neq in Hflag. rewrite Hflag. cbn [negb].
  cbn [aData sz szMax fd set_aData set_sz set_szMax set_fd set_isAurMmap
       AuroraFile_zero].
  unfold bind, extern, put_mainDbName, ret. cbv beta iota zeta.
  destruct (Z.eqb_spec (uint64 (sqlite3_uri_int64 zName "ptr" 0)) 0) as [E1 | E1].
  { left. split; [exact E1 | reflexivity]. }
  right.
  destruct (Z.ltb_spec (sqlite3_uri_int64 zName "sz" (-1)) 0) as [E2 | E2].
  { left. repeat split; assumption || reflexivity. }
  right.
  destruct (Z.ltb_spec (sqlite3_uri_int64 zName "max" (sqlite3_uri_int64 zName "sz" (-1)))
              (sqlite3_uri_int64 zName "sz" (-1))) as [E3 | E3].
  { left. repeat split; assumption || reflexivity. }
  right.
  destruct (Z.eqb_spec (sint32 (sqlite3_uri_int64 zName "fd" 0)) 0) as [E4 | E4].
  { left. repeat split; assumption || reflexivity. }
  right.
  set (start := sas_trace_start (sint32 (sqlite3_uri_int64 zName "fd" 0))).
  destruct (Z.eqb_spec (r_rc (host (calls w) start)) 0) as [E5 | E5];
    cbn [negb]; cbv beta iota zeta.
  2:{ left. repeat split; assumption || reflexivity. }
  right. split; [exact E1 | split; [split; assumption | split; [exact E4 |]]].
  split; [exact E5 |].
  destruct (copy_name_run zName (log_call start w))
    as (n1 & u1 & Ec1 & Hfit1 & Hov1 & _).
  rewrite Ec1. cbv beta iota zeta.
  match goal with
  | |- context [copy_name host _ ?w0] =>
      destruct (copy_name_run zName w0) as (n2 & u2 & Ec2 & Hfit2 & Hov2 & Hmono2)
  end.
  rewrite Ec2. cbv beta iota zeta.
  cbn [calls log_call set_mainDbName mem mainDbName undefined] in *.
  exists n1, n2, u2. rewrite <- app_assoc. cbn [app].
  split; [reflexivity | split].
  - intros Hfit.
    destruct (Hfit1 (Hfit _)) as [-> Hu1].
    destruct (Hfit2 (Hfit _)) as [-> Hu2].
    repeat split; try reflexivity.
    rewrite Hu2. exact Hu1.
  - intros [Hr Hm]. apply Hmono2. exact (Hov1 Hr (Hm _)).
Qed.

(** C5 (amended).  Memory-backed open of a named file.  The open returns
    [SQLITE_CANTOPEN] without having made any external call exactly when
    [ptr] is absent or zero, [sz] is absent or negative, the capacity is
    below [sz], or [fd] is absent or zero as a C [int].  The checks run in
    that order: each one sees only the fields read before it.  With a valid
    configuration the checkpoint session is started next, and a non-zero
    answer gives [SQLITE_INTERNAL] without the wrapped open; only then the
    wrapped VFS is asked to open the file, and its status, whatever it is,
    is the status of the open; on that path the name is copied, and for a
    name whose copies fit their blocks nothing undefined is executed. *)
Theorem auroraOpen_mmap_checks (zName : filename) (flags : Z) (w : world) :
  Z.land flags SQLITE_OPEN_MAIN_DB <> 0 ->
  wf_filename zName ->
  let no_ptr := uri_value zName "ptr" = None \/ uri_value zName "ptr" = Some 0 in
  let no_sz := uri_value zName "sz" = None \/
               exists v, uri_value zName "sz" = Some v /\ v < 0 in
  let vsz := sqlite3_uri_int64 zName "sz" (-1) in
  let capacity := sqlite3_uri_int64 zName "max" vsz in
  let no_fd := uri_value zName "fd" = None \/
               exists v, uri_value zName "fd" = Some v /\ sint32 v = 0 in
  let vfd := sint32 (sqlite3_uri_int64 zName "fd" 0) in
  let start := sas_trace_start vfd in
  let '(rc, p, w') := auroraOpen host zName flags w in
  ((rc = SQLITE_CANTOPEN /\ calls w' = calls w) <->
   (no_ptr \/ no_sz \/ capacity < vsz \/ no_fd)) /\
  (no_ptr ->
   rc = SQLITE_CANTOPEN /\ w' = w /\ sz p = 0 /\ szMax p = 0 /\ fd p = 0) /\
  (~ no_ptr -> no_sz ->
   rc = SQLITE_CANTOPEN /\ w' = w /\ sz p = vsz /\ szMax p = 0 /\ fd p = 0) /\
  (~ no_ptr -> ~ no_sz -> capacity < vsz ->
   rc = SQLITE_CANTOPEN /\ w' = w /\ sz p = vsz /\ szMax p = capacity /\
   fd p = 0) /\
  (~ no_ptr -> ~ no_sz -> ~ capacity < vsz -> no_fd ->
   rc = SQLITE_CANTOPEN /\ w' = w /\ sz p = vsz /\ szMax p = capacity /\
   fd p = 0) /\
  (~ no_ptr -> ~ no_sz -> ~ capacity < vsz -> ~ no_fd ->
   (r_rc (host (calls w) start) <> 0 ->
    rc = SQLITE_INTERNAL /\ w' = log_call start w) /\
   (r_rc (host (calls w) start) = 0 ->
    rc = r_rc (host (calls w ++ [start])%list (xOpen zName flags)) /\
    calls w' = (calls w ++ [start; xOpen zName flags])%list /\
    sz p = vsz /\ szMax p = capacity /\ fd p = vfd /\
    (name_fits host (uri_path zName) -> undefined w' = undefined w))).
Proof.
  intros Hflag Hwf.
  pose proof (ptr_check zName Hwf) as Hp.
  pose proof (sz_check zName Hwf) as Hs.
  pose proof (fd_check zName) as Hf.
  cbv zeta.
  destruct (auroraOpen_mmap_cases zName flags w Hflag)
    as [(E1 & E) | [(E1 & E2 & E) | [(E1 & E2 & E3 & E) | [(E1 & E2 & E4 & E)
        | [(E1 & E2 & E4 & E5 & E) | (E1 & E2 & E4 & E5 & n1 & n2 & u & E & Hfit & _)]]]]];
    rewrite E; clear E.
  - rewrite Hp in E1.
    cbn [sz szMax fd set_aData set_isAurMmap AuroraFile_zero].
    repeat split; intros; try reflexivity; try tauto.
  - rewrite Hp in E1. rewrite Hs in E2.
    cbn [sz szMax fd set_sz set_aData set_isAurMmap AuroraFile_zero].
    repeat split; intros; try reflexivity; try tauto.
  - rewrite Hp in E1.
    assert (E2' : ~ sqlite3_uri_int64 zName "sz" (-1) < 0) by lia.
    rewrite Hs in E2'.
    cbn [sz szMax fd set_szMax set_sz set_aData set_isAurMmap AuroraFile_zero].
    repeat split; intros; try reflexivity; try tauto.
  - rewrite Hp in E1.
    assert (E2' : ~ sqlite3_uri_int64 zName "sz" (-1) < 0) by lia.
    rewrite Hs in E2'.
    assert (E3' : ~ sqlite3_uri_int64 zName "max" (sqlite3_uri_int64 zName "sz" (-1))
                    < sqlite3_uri_int64 zName "sz" (-1)) by lia.
    pose proof E4 as E4'. rewrite Hf in E4'.
    cbn [sz szMax fd set_fd set_szMax set_sz set_aData set_isAurMmap
         AuroraFile_zero].
    repeat split; intros; try reflexivity; try tauto; try exact E4.
  - rewrite Hp in E1.
    assert (E2' : ~ sqlite3_uri_int64 zName "sz" (-1) < 0) by lia.
    rewrite Hs in E2'.
    assert (E3' : ~ sqlite3_uri_int64 zName "max" (sqlite3_uri_int64 zName "sz" (-1))
                    < sqlite3_uri_int64 zName "sz" (-1)) by lia.
    rewrite Hf in E4.
    cbn [sz szMax fd calls log_call].
    split; [| repeat split; intros; try reflexivity; try tauto; try lia].
    split; [| tauto]. intros [Hrc _]. discriminate Hrc.
  - rewrite Hp in E1.
    assert (E2' : ~ sqlite3_uri_int64 zName "sz" (-1) < 0) by lia.
    rewrite Hs in E2'.
    assert (E3' : ~ sqlite3_uri_int64 zName "max" (sqlite3_uri_int64 zName "sz" (-1))
                    < sqlite3_uri_int64 zName "sz" (-1)) by lia.
    rewrite Hf in E4.
    assert (Hfin : forall (b : bool) (q : AuroraFile),
               sz (if b then set_pMethods true q else q) = sz q /\
               szMax (if b then set_pMethods true q else q) = szMax q /\
               fd (if b then set_pMethods true q else q) = fd q)
      by (intros [] q; repeat split; reflexivity).
    cbn [calls undefined].
    split; [| repeat split; intros; try tauto; try lia; try reflexivity;
              try apply Hfin].
    split; [| tauto]. intros [_ Hc]. exfalso.
    exact (app_cons_neq _ _ _ Hc).
Qed.

End OpenProps.

Lemma wf_filename_Forall (zName : filename) :
  Forall (fun kv => match snd kv with
                    | Some v => in_int64 v
                    | None => True
                    end) (uri_query zName) ->
  wf_filename zName.
Proof.
  unfold wf_filename, uri_value, named. intros H k v.
  induction H as [| [k' o] q Hkv _ IH]; simpl.
  - discriminate.
  - destruct (String.eqb k' k).
    + destruct o as [v' |]; [| discriminate].
      intros E. injection E as <-. exact Hkv.
    + exact IH.
Qed.

Lemma wf_name_max : wf_filename name_max.
Proof.
  apply wf_filename_Forall. repeat constructor; unfold in_int64; simpl; lia.
Qed.

Lemma wf_name_fd_wide : wf_filename name_fd_wide.
Proof.
  apply wf_filename_Forall. repeat constructor; unfold in_int64; simpl; lia.
Qed.

Lemma name_fits_db : name_fits host_ok "/db".
Proof. intros l. unfold room_at. vm_compute. repeat split; reflexivity. Qed.

Lemma name_fits_other : name_fits host_ok "/other".
Proof. intros l. unfold room_at. vm_compute. repeat split; reflexivity. Qed.

Lemma name_fits_db_unopened : name_fits host_open_fails "/db".
Proof. intros l. unfold room_at. vm_compute. repeat split; reflexivity. Qed.

Lemma name_fits_journal : name_fits host_open_fails "/db-journal".
Proof. intros l. unfold room_at. vm_compute. repeat split; reflexivity. Qed.

Lemma name_overflows_db : name_overflows host_exact "/db".
Proof.
  split; [vm_compute; reflexivity | intros l; vm_compute; discriminate].
Qed.

(** C5 (as stated) fails in both directions of "exactly when".  With the
    valid configuration [ptr=4096, sz=100, max=1000, fd=7] and a wrapped
    VFS that cannot open the file, the open returns [SQLITE_CANTOPEN] after
    the session start and the wrapped open.  With [fd=4294967296], present
    and not zero, the open returns [SQLITE_CANTOPEN] at the [fd] check. *)
Lemma auroraOpen_cantopen_with_valid_configuration :
  (let '(rc, p, w') :=
     auroraOpen host_open_fails name_max SQLITE_OPEN_MAIN_DB world0 in
   rc = SQLITE_CANTOPEN /\
   aData p = 4096 /\ sz p = 100 /\ szMax p = 1000 /\ fd p = 7 /\
   calls w' = [sas_trace_start 7; xOpen name_max SQLITE_OPEN_MAIN_DB] /\
   undefined w' = false) /\
  (uri_value name_fd_wide "fd" = Some 4294967296 /\
   let '(rc, p, w') :=
     auroraOpen host_ok name_fd_wide SQLITE_OPEN_MAIN_DB world0 in
   rc = SQLITE_CANTOPEN /\ fd p = 0 /\ w' = world0).
Proof. vm_compute. repeat split; reflexivity. Qed.

Lemma auroraOpen_mmap_checks_witness :
  (let '(rc, p, w') := auroraOpen host_ok name_max SQLITE_OPEN_MAIN_DB world0 in
   rc = SQLITE_OK /\
   calls w' = [sas_trace_start 7; xOpen name_max SQLITE_OPEN_MAIN_DB] /\
   sz p = 100 /\ szMax p = 1000 /\ fd p = 7 /\ undefined w' = false) /\
  (let '(rc, p, w') :=
     auroraOpen host_ok name_fd_wide SQLITE_OPEN_MAIN_DB world0 in
   rc = SQLITE_CANTOPEN /\ w' = world0 /\ sz p = 100 /\ szMax p = 100 /\
   fd p = 0).
Proof.
  assert (Hptr : forall n : filename,
             uri_value n "ptr" = Some 4096 ->
             ~ (uri_value n "ptr" = None \/ uri_value n "ptr" = Some 0))
    by (intros n E [H1 | H1]; rewrite E in H1; discriminate).
  assert (Hsz : forall n : filename,
             uri_value n "sz" = Some 100 ->
             ~ (uri_value n "sz" = None \/
                exists v, uri_value n "sz" = Some v /\ v < 0)).
  { intros n E [H1 | (v & H1 & Hv)]; rewrite E in H1; [discriminate |].
    injection H1 as <-. lia. }
  split.
  - pose proof (auroraOpen_mmap_checks host_ok name_max SQLITE_OPEN_MAIN_DB world0
                  ltac:(simpl; lia) wf_name_max) as H.
    cbv zeta in H.
    destruct (auroraOpen host_ok name_max SQLITE_OPEN_MAIN_DB world0)
      as [[rc p] w'].
    destruct H as (_ & _ & _ & _ & _ & H).
    assert (Hcap : ~ sqlite3_uri_int64 name_max "max"
                       (sqlite3_uri_int64 name_max "sz" (-1))
                     < sqlite3_uri_int64 name_max "sz" (-1))
      by (vm_compute; discriminate).
    assert (Hfd : ~ (uri_value name_max "fd" = None \/
                     exists v, uri_value name_max "fd" = Some v /\ sint32 v = 0)).
    { intros [H1 | (v & H1 & Hv)]; vm_compute in H1; [discriminate |].
      injection H1 as <-. vm_compute in Hv. discriminate Hv. }
    destruct (H (Hptr name_max eq_refl) (Hsz name_max eq_refl) Hcap Hfd)
      as [_ Hok].
    destruct (Hok eq_refl) as (Hrc & Hcalls & Hs & Hm & Hf & Hu).
    repeat split; try assumption.
    exact (Hu name_fits_db).
  - pose proof (auroraOpen_mmap_checks host_ok name_fd_wide SQLITE_OPEN_MAIN_DB
                  world0 ltac:(simpl; lia) wf_name_fd_wide) as H.
    cbv zeta in H.
    destruct (auroraOpen host_ok name_fd_wide SQLITE_OPEN_MAIN_DB world0)
      as [[rc p] w'].
    destruct H as (_ & _ & _ & _ & H & _).
    assert (Hcap : ~ sqlite3_uri_int64 name_fd_wide "max"
                       (sqlite3_uri_int64 name_fd_wide "sz" (-1))
                     < sqlite3_uri_int64 name_fd_wide "sz" (-1))
      by (vm_compute; discriminate).
    assert (Hfd : uri_value name_fd_wide "fd" = None \/
                  exists v, uri_value name_fd_wide "fd" = Some v /\ sint32 v = 0)
      by (right; exists 4294967296; split; reflexivity).
    exact (H (Hptr name_fd_wide eq_refl) (Hsz name_fd_wide eq_refl) Hcap Hfd).
Defined.

(** C7.  The capacity is read from the key [max]: a name that supplies
    [maxsz=1000] with [sz=100] opens with capacity 100, and the first byte
    written past offset 100 is refused with [SQLITE_FULL]. *)
Theorem auroraOpen_maxsz_ignored :
  uri_value name_maxsz "maxsz" = Some 1000 /\
  let '(rc, p, w') := auroraOpen host_ok name_maxsz SQLITE_OPEN_MAIN_DB world0 in
  rc = SQLITE_OK /\ sz p = 100 /\ szMax p = 100 /\
  fst (fst (auroraWrite host_ok p [x01] 1 100 w')) = SQLITE_FULL.
Proof. vm_compute. repeat split; reflexivity. Qed.

(** ** Close, lock and unlock *)

Section DelegationProps.

Variable host : list call -> call -> reply.

(** A delegated open goes straight to the wrapped VFS and then copies the
    name.  With a NULL name the copy dereferences NULL. *)
Lemma auroraOpen_delegated (zName : zname) (flags : Z) (w : world) :
  Z.land flags SQLITE_OPEN_MAIN_DB = 0 ->
  let rcx := r_rc (host (calls w) (xOpen zName flags)) in
  let p0 := set_isAurMmap (Z.land flags SQLITE_OPEN_MAIN_DB) AuroraFile_zero in
  exists n u,
    auroraOpen host zName flags w
    = (rcx,
       (if rcx =? 0 then set_pMethods true (set_fileName n p0)
        else set_fileName n p0),
       mkWorld (mem w) (mainDbName w) (calls w ++ [xOpen zName flags])%list u) /\
    (zName = None -> n = None /\ u = true) /\
    (forall f : filename, zName = Some f ->
       (room_at host (calls w ++ [xOpen zName flags])%list (uri_path f) ->
        n = Some (uri_path f) /\ u = undefined w) /\
       (name_overflows host (uri_path f) -> u = true)).
Proof.
  intros Hflag. cbv zeta. unfold auroraOpen. rewrite Hflag. cbn [Z.eqb negb].
  unfold bind, extern, ret. cbv beta iota zeta.
  destruct zName as [f |].
  - destruct (copy_name_run host f (log_call (xOpen (Some f) flags) w))
      as (n & u & Ec & Hfit & Hov & _).
    unfold named in Ec. rewrite Ec.
    cbn [calls log_call mem mainDbName undefined] in *.
    exists n, u. split; [reflexivity | split; [intros H; discriminate H |]].
    intros f' H. injection H as <-.
    split; [exact Hfit | intros [Hr Hm]; exact (Hov Hr (Hm _))].
  - exists None, true. split; [reflexivity | split; [intros _; split; reflexivity |]].
    intros f H. discriminate H.
Qed.

(** C8 (amended).  Close closes the wrapped file, and returns its status,
    on a delegated handle; on a memory-backed handle it makes no external
    call and returns [SQLITE_OK]. *)
Theorem auroraClose_by_mode (p : AuroraFile) (w : world) :
  (isAurMmap p = 0 ->
   auroraClose host p w = (r_rc (host (calls w) xClose), log_call xClose w)) /\
  (isAurMmap p <> 0 -> auroraClose host p w = (SQLITE_OK, w)).
Proof.
  unfold auroraClose. split.
  - intros ->. reflexivity.
  - intros Hm. rewrite (mmap_test p Hm). reflexivity.
Qed.

(** On a delegated handle lock and unlock are forwarded with their
    argument, and the answer is [SQLITE_OK] whatever the wrapped file said. *)
Lemma auroraLock_delegated (p : AuroraFile) (eLock : Z) (w : world) :
  isAurMmap p = 0 ->
  auroraLock host p eLock w = (SQLITE_OK, log_call (xLock eLock) w) /\
  auroraUnlock host p eLock w = (SQLITE_OK, log_call (xUnlock eLock) w).
Proof.
  intros Hm. unfold auroraLock, auroraUnlock. rewrite Hm. split; reflexivity.
Qed.

End DelegationProps.

(** C8 (as stated) fails: a memory-backed handle opened on a valid name,
    with the wrapped file opened alongside, is closed without any [xClose]
    reaching the wrapped file. *)
Lemma auroraClose_mmap_no_xClose :
  let '(rc0, p, w1) := auroraOpen host_ok name_max SQLITE_OPEN_MAIN_DB world0 in
  let '(rc, w2) := auroraClose host_ok p w1 in
  rc0 = SQLITE_OK /\ isAurMmap p <> 0 /\
  In (xOpen name_max SQLITE_OPEN_MAIN_DB) (calls w1) /\
  rc = SQLITE_OK /\ calls w2 = calls w1 /\ ~ In xClose (calls w2).
Proof.
  vm_compute. repeat split; try reflexivity.
  - discriminate.
  - right. left. reflexivity.
  - intros [H | [H | []]]; discriminate H.
Qed.

Lemma auroraClose_by_mode_witness :
  auroraClose host_ok file_real world0 = (SQLITE_OK, log_call xClose world0) /\
  auroraClose host_ok file_mmap world0 = (SQLITE_OK, world0).
Proof.
  split.
  - apply (proj1 (auroraClose_by_mode host_ok file_real world0)). reflexivity.
  - apply (proj2 (auroraClose_by_mode host_ok file_mmap world0)). simpl. lia.
Defined.

(** C9.  On a delegated handle whose wrapped file answers [SQLITE_BUSY],
    lock and unlock are forwarded but return [SQLITE_OK]. *)
Theorem auroraLock_drops_status :
  isAurMmap file_real = 0 /\
  r_rc (host_busy (calls world0) (xLock 1)) = SQLITE_BUSY /\
  auroraLock host_busy file_real 1 world0 = (SQLITE_OK, log_call (xLock 1) world0) /\
  r_rc (host_busy (calls world0) (xUnlock 0)) = SQLITE_BUSY /\
  auroraUnlock host_busy file_real 0 world0
  = (SQLITE_OK, log_call (xUnlock 0) world0) /\
  SQLITE_OK <> SQLITE_BUSY.
Proof. repeat split; try reflexivity. discriminate. Qed.

(** ** Access *)

Lemma uchar_inj (c d : ascii) : uchar c = uchar d -> c = d.
Proof.
  unfold uchar. intros H. apply N2Z.inj in H.
  rewrite <- (ascii_N_embedding c), <- (ascii_N_embedding d), H. reflexivity.
Qed.

(** On C strings [strcmp] answers zero exactly for equal strings. *)
Lemma strcmp_eq0 (a b : string) :
  no_nul a -> no_nul b -> (strcmp a b = 0 <-> a = b).
Proof.
  revert b. induction a as [| c a IH]; intros [| d b]; simpl.
  - intros _ _. split; reflexivity.
  - intros _ [Hd _]. split; [lia | discriminate].
  - intros [Hc _] _. split; [lia | discriminate].
  - intros [Hc Ha] [Hd Hb].
    destruct (Z.eqb_spec (uchar c) (uchar d)) as [E | E].
    + destruct (Z.eqb_spec (uchar c) 0) as [E0 | _]; [contradiction |].
      apply uchar_inj in E. subst d. rewrite (IH b Ha Hb).
      split; [intros ->; reflexivity | intros H; injection H; auto].
    + split; [lia |]. intros H. injection H as -> _. contradiction.
Qed.

Section AccessProps.

Variable host : list call -> call -> reply.

(** [mainDbName] is recorded by the opens that get as far as the wrapped
    open after starting the checkpoint session, that is, by memory-backed
    opens whose checks passed; every other open leaves it as it was.  What
    is recorded is the path, for a name whose copy fits its block. *)
Lemma auroraOpen_mainDbName (zName : filename) (flags : Z) (w : world) :
  let '(rc, p, w') := auroraOpen host zName flags w in
  let through := (calls w ++ [sas_trace_start (fd p); xOpen zName flags])%list in
  (calls w' = through -> name_fits host (uri_path zName) ->
   mainDbName w' = Some (uri_path zName) /\ undefined w' = undefined w) /\
  (calls w' <> through -> mainDbName w' = mainDbName w).
Proof.
  destruct (Z.eq_dec (Z.land flags SQLITE_OPEN_MAIN_DB) 0) as [E0 | Hflag].
  - destruct (auroraOpen_delegated host zName flags w E0)
      as (n & u & E & _).
    rewrite E. cbv zeta. cbn [calls mainDbName]. split; [| reflexivity].
    intros H. apply app_inv_head in H. discriminate H.
  - destruct (auroraOpen_mmap_cases host zName flags w Hflag)
      as [(_ & E) | [(_ & _ & E) | [(_ & _ & _ & E) | [(_ & _ & _ & E)
          | [(_ & _ & _ & _ & E) | (_ & _ & _ & _ & n1 & n2 & u & E & Hfit & _)]]]]];
      rewrite E; clear E; cbv zeta.
    + split; [| reflexivity].
      intros H. symmetry in H. exfalso. exact (app_cons_neq _ _ _ H).
    + split; [| reflexivity].
      intros H. symmetry in H. exfalso. exact (app_cons_neq _ _ _ H).
    + split; [| reflexivity].
      intros H. symmetry in H. exfalso. exact (app_cons_neq _ _ _ H).
    + split; [| reflexivity].
      intros H. symmetry in H. exfalso. exact (app_cons_neq _ _ _ H).
    + cbn [calls log_call mainDbName]. split; [| reflexivity].
      intros H. apply app_inv_head in H. discriminate H.
    + assert (Hfd : forall (b : bool) (q : AuroraFile),
                 fd (if b then set_pMethods true q else q) = fd q)
        by (intros [] q; reflexivity).
      rewrite Hfd.
      cbn [fd set_fileName set_bCkptOnSync set_szThreshold set_fd calls
           mainDbName undefined].
      split.
      * intros _ Hn. destruct (Hfit Hn) as (-> & _ & ->).
        split; reflexivity.
      * intros H. contradiction.
Qed.

(** C10.  An access query for the recorded main database name answers
    "exists" with [SQLITE_OK] and asks nobody; a query for any other name,
    and every query while no name is recorded, is passed to the wrapped VFS
    and answered with its status and result. *)
Theorem auroraAccess_override (zPath : string) (flags : Z) (w : world) :
  no_nul zPath ->
  (forall name, mainDbName w = Some name -> no_nul name) ->
  (forall name, mainDbName w = Some name -> zPath = name ->
   auroraAccess host zPath flags w = (SQLITE_OK, 1, w)) /\
  ((forall name, mainDbName w = Some name -> zPath <> name) ->
   auroraAccess host zPath flags w
   = (r_rc (host (calls w) (xAccess zPath flags)),
      r_out (host (calls w) (xAccess zPath flags)),
      log_call (xAccess zPath flags) w)).
Proof.
  intros Hz Hn. unfold auroraAccess, bind, get_mainDbName.
  destruct (mainDbName w) as [name |] eqn:E.
  - pose proof (strcmp_eq0 zPath name Hz (Hn name eq_refl)) as Hcmp.
    split.
    + intros name' H Heq. injection H as <-.
      apply Hcmp in Heq. rewrite Heq. reflexivity.
    + intros Hne.
      destruct (Z.eqb_spec (strcmp zPath name) 0) as [H0 | _].
      * apply Hcmp in H0. exfalso. exact (Hne name eq_refl H0).
      * reflexivity.
  - split; [intros name H; discriminate H | intros _; reflexivity].
Qed.

End AccessProps.

Lemma auroraAccess_override_witness :
  let '(_, _, w1) := auroraOpen host_no_file name_max SQLITE_OPEN_MAIN_DB world0 in
  auroraAccess host_no_file "/db" 0 w1 = (SQLITE_OK, 1, w1) /\
  auroraAccess host_no_file "/db-journal" 0 w1
  = (SQLITE_OK, 0, log_call (xAccess "/db-journal" 0) w1) /\
  auroraAccess host_no_file "/db" 0 world0
  = (SQLITE_OK, 0, log_call (xAccess "/db" 0) world0).
Proof.
  destruct (auroraOpen host_no_file name_max SQLITE_OPEN_MAIN_DB world0)
    as [[rc p] w1] eqn:E.
  assert (Hname : mainDbName w1 = Some "/db")
    by (vm_compute in E; injection E as _ _ <-; reflexivity).
  assert (Hnul : forall s : string, (s = "/db" \/ s = "/db-journal") -> no_nul s).
  { intros s [-> | ->]; simpl; unfold uchar; simpl; repeat split; lia. }
  split; [| split].
  - apply (proj1 (auroraAccess_override host_no_file "/db" 0 w1
                    (Hnul _ (or_introl eq_refl))
                    ltac:(intros n H; rewrite Hname in H; injection H as <-;
                          apply Hnul; left; reflexivity)) "/db" Hname eq_refl).
  - apply (proj2 (auroraAccess_override host_no_file "/db-journal" 0 w1
                    (Hnul _ (or_intror eq_refl))
                    ltac:(intros n H; rewrite Hname in H; injection H as <-;
                          apply Hnul; left; reflexivity))).
    intros n H. rewrite Hname in H. injection H as <-. discriminate.
  - apply (proj2 (auroraAccess_override host_no_file "/db" 0 world0
                    (Hnul _ (or_introl eq_refl))
                    ltac:(intros n H; discriminate H))).
    intros n H. discriminate H.
Defined.

(** ** The size invariant *)

Section InvariantProps.

Variable host : list call -> call -> reply.

Ltac run_io :=
  unfold bind, extern, ret, get_mem, put_mem; cbv beta iota zeta.

(** A write keeps the size within the capacity whatever its arguments. *)
Lemma auroraWrite_size_ok
  (p : AuroraFile) (z : list byte) (iAmt iOfst : Z) (w : world) :
  size_ok p -> szMax p < 2 ^ 63 ->
  let '(rc, p', w') := auroraWrite host p z iAmt iOfst w in
  size_ok p' /\ szMax p' = szMax p.
Proof.
  intros Hs Hc. pose proof Hs as [Hs0 Hs1]. unfold auroraWrite.
  destruct (isAurMmap p =? 0); [run_io; split; auto |].
  rewrite (uint64_small (szMax p)), (uint64_small (sz p)) by lia.
  pose proof (uint64_range (sint64 (iOfst + iAmt))) as Hend.
  set (szEnd := uint64 (sint64 (iOfst + iAmt))) in *.
  destruct (Z.gtb_spec szEnd (szMax p)) as [Hgt | Hle];
    [run_io; split; auto |].
  assert (Hnew : 0 <= sint64 (if szEnd >? sz p then szEnd else sz p) <= szMax p).
  { destruct (Z.gtb_spec szEnd (sz p));
      rewrite sint64_small by (unfold in_int64; lia); lia. }
  run_io. unfold size_ok.
  cbn [szThreshold szWritten fd set_sz set_szWritten].
  destruct (szThreshold p =? 0); [cbv beta iota; cbn [sz szMax]; split; auto |].
  destruct (uint64 (sint64 (szWritten p + iAmt)) >? szThreshold p);
    [| cbv beta iota; cbn [sz szMax]; split; auto].
  destruct (r_rc _ <? 0); cbv beta iota; cbn [sz szMax set_szWritten]; split; auto.
Qed.

(** A truncate to a non-negative size keeps the size within the capacity. *)
Lemma auroraTruncate_size_ok (p : AuroraFile) (size : Z) (w : world) :
  size_ok p -> 0 <= size ->
  let '(rc, p', w') := auroraTruncate host p size w in
  size_ok p' /\ szMax p' = szMax p.
Proof.
  intros Hs Hsize. pose proof Hs as [Hs0 Hs1]. unfold auroraTruncate.
  destruct (isAurMmap p =? 0); [run_io; split; auto |].
  destruct (Z.gtb_spec size (sz p)) as [Hgt | Hle].
  - destruct (Z.gtb_spec size (szMax p)) as [Hfull | Hfit].
    + run_io. split; auto.
    + run_io. unfold size_ok. cbn [sz szMax set_sz].
      split; auto; lia.
  - run_io. unfold size_ok. cbn [sz szMax set_sz]. split; auto; lia.
Qed.

(** Every file method keeps [0 <= sz <= szMax] and leaves [szMax] alone,
    provided a truncate is to a non-negative size. *)
Lemma aurora_io_methods_size_ok (req : io_request) (p : AuroraFile) (w : world) :
  size_ok p -> szMax p < 2 ^ 63 ->
  (forall size, req = ReqTruncate size -> 0 <= size) ->
  let '(rc, p', w') := aurora_io_methods host req p w in
  size_ok p' /\ szMax p' = szMax p.
Proof.
  intros Hs Hc Hreq.
  assert (Hkeep : forall (A : Type) (m : io A) (f : A -> Z),
             let '(rc, p', w') := bind m (fun r => ret (f r, p)) w in
             size_ok p' /\ szMax p' = szMax p).
  { intros A m f. unfold bind, ret. destruct (m w). split; auto. }
  destruct req; cbn [aurora_io_methods];
    try (apply (Hkeep _ _ (fun rc : Z => rc)));
    try (apply (Hkeep _ _ (fun r => fst r)));
    try (apply (Hkeep _ _ (fun _ : unit => SQLITE_OK))).
  - apply auroraWrite_size_ok; assumption.
  - apply auroraTruncate_size_ok; [assumption | apply (Hreq size eq_refl)].
  - unfold auroraSync.
    destruct (isAurMmap p =? 0); [run_io; split; auto |].
    destruct (_ || _); [run_io; split; auto |].
    run_io. destruct (_ <? 0); cbv beta iota; split; auto.
Qed.

End InvariantProps.


(** * Further properties of the file methods *)

(** ** Reading back what was written *)

Lemma load_bytes_ext (m m' : memory) (addr : Z) (n : nat) :
  (forall a, addr <= a < addr + Z.of_nat n -> m' a = m a) ->
  load_bytes m' addr n = load_bytes m addr n.
Proof.
  intros H. unfold load_bytes. apply map_ext_in.
  intros i Hi. apply in_seq in Hi. apply H. lia.
Qed.

Lemma load_bytes_const (m : memory) (addr : Z) (n : nat) (c : byte) :
  (forall a, addr <= a < addr + Z.of_nat n -> m a = c) ->
  load_bytes m addr n = repeat c n.
Proof.
  intros H. unfold load_bytes.
  assert (G : forall k s, (forall i, In i (seq s k) -> m (addr + Z.of_nat i) = c) ->
              map (fun i => m (addr + Z.of_nat i)) (seq s k) = repeat c k).
  { induction k as [| k IH]; intros s Hs; simpl; [reflexivity |].
    rewrite (Hs s) by (left; reflexivity).
    f_equal. apply IH. intros i Hi. apply Hs. right. exact Hi. }
  apply G. intros i Hi. apply in_seq in Hi. apply H. lia.
Qed.

Section DataPathProps.

Variable host : list call -> call -> reply.

(** A memory-backed read copies straight out of the buffer. *)
Lemma auroraRead_mmap (p : AuroraFile) (iAmt iOfst : Z) (w : world) :
  isAurMmap p <> 0 -> 0 <= iAmt < 2 ^ 64 ->
  auroraRead host p iAmt iOfst w
  = (SQLITE_OK, load_bytes (mem w) (aData p + iOfst) (Z.to_nat iAmt), w).
Proof.
  intros Hm Ha. unfold auroraRead. rewrite (mmap_test p Hm).
  rewrite (uint64_small iAmt Ha). reflexivity.
Qed.

(** The effect of a write whose end offset lies within capacity, for any
    64-bit offset. *)
Lemma auroraWrite_accepts
  (p : AuroraFile) (z : list byte) (iAmt iOfst : Z) (w : world) :
  isAurMmap p <> 0 -> size_ok p -> szMax p < 2 ^ 63 ->
  in_int64 iOfst -> 0 <= iAmt < 2 ^ 31 ->
  0 <= iOfst + iAmt <= szMax p ->
  auroraWrite host p z iAmt iOfst w =
    let p1 := set_szWritten (sint64 (szWritten p + iAmt))
                (set_sz (Z.max (sz p) (iOfst + iAmt)) p) in
    let w1 := set_mem (memcpy (mem w) (aData p + iOfst) z iAmt) w in
    let commit := sas_trace_commit (fd p) in
    if szThreshold p =? 0 then (SQLITE_OK, p1, w1)
    else if uint64 (sint64 (szWritten p + iAmt)) >? szThreshold p then
      if r_rc (host (calls w) commit) <? 0
      then (SQLITE_ERROR_SNAPSHOT, p1, log_call commit w1)
      else (SQLITE_OK, set_szWritten 0 p1, log_call commit w1)
    else (SQLITE_OK, p1, w1).
Proof.
  intros Hm [Hs0 Hs1] Hc Ho Ha Hle. unfold auroraWrite, in_int64 in *.
  rewrite (mmap_test p Hm), uint64_sint64, (uint64_small (iOfst + iAmt)) by lia.
  rewrite (uint64_small (szMax p)), (uint64_small (sz p)), (uint64_small iAmt) by lia.
  destruct (Z.gtb_spec (iOfst + iAmt) (szMax p)) as [Hgt | _]; [lia |].
  assert (Hmax : sint64 (if iOfst + iAmt >? sz p then iOfst + iAmt else sz p)
                 = Z.max (sz p) (iOfst + iAmt)).
  { destruct (Z.gtb_spec (iOfst + iAmt) (sz p));
      rewrite sint64_small by (unfold in_int64; lia); lia. }
  rewrite Hmax. cbn -[Z.max sint64 uint64 Z.pow].
  unfold bind, get_mem, put_mem, ret, extern. cbn -[Z.max sint64 uint64 Z.pow].
  destruct (szThreshold p =? 0); [reflexivity |].
  destruct (uint64 (sint64 (szWritten p + iAmt)) >? szThreshold p); [| reflexivity].
  cbn [calls set_mem].
  destruct (r_rc (host (calls w) (sas_trace_commit (fd p))) <? 0); reflexivity.
Qed.

(** What every accepted write leaves behind, whatever the checkpoint did. *)
Lemma auroraWrite_accepted_state
  (p : AuroraFile) (z : list byte) (iAmt iOfst : Z) (w : world) :
  isAurMmap p <> 0 -> size_ok p -> szMax p < 2 ^ 63 ->
  in_int64 iOfst -> 0 <= iAmt < 2 ^ 31 ->
  0 <= iOfst + iAmt <= szMax p ->
  let '(rc, p', w') := auroraWrite host p z iAmt iOfst w in
  mem w' = memcpy (mem w) (aData p + iOfst) z iAmt /\
  aData p' = aData p /\ isAurMmap p' = isAurMmap p /\
  sz p' = Z.max (sz p) (iOfst + iAmt) /\
  (rc = SQLITE_OK \/ rc = SQLITE_ERROR_SNAPSHOT).
Proof.
  intros Hm Hs Hc Ho Ha Hle.
  rewrite auroraWrite_accepts by assumption. cbv zeta.
  destruct (szThreshold p =? 0); [cbn -[Z.max]; auto 10 |].
  destruct (uint64 (sint64 (szWritten p + iAmt)) >? szThreshold p);
    [| cbn -[Z.max]; auto 10].
  destruct (r_rc (host (calls w) (sas_trace_commit (fd p))) <? 0);
    cbn -[Z.max]; auto 10.
Qed.

(** X1.  Round trip: after a memory-backed write within capacity, reading
    the same amount at the same offset returns [SQLITE_OK] and exactly the
    bytes written, also when the write itself reported a failed
    checkpoint. *)
Theorem write_then_read
  (p : AuroraFile) (z : list byte) (iAmt iOfst : Z) (w : world) :
  isAurMmap p <> 0 -> size_ok p -> szMax p < 2 ^ 63 ->
  0 <= iOfst < 2 ^ 63 -> iAmt = Z.of_nat (List.length z) -> iAmt < 2 ^ 31 ->
  iOfst + iAmt <= szMax p ->
  let '(rc, p', w') := auroraWrite host p z iAmt iOfst w in
  auroraRead host p' iAmt iOfst w' = (SQLITE_OK, z, w').
Proof.
  intros Hm Hs Hc Ho Hz Ha Hle.
  pose proof (auroraWrite_accepted_state p z iAmt iOfst w Hm Hs Hc
                ltac:(unfold in_int64; lia) ltac:(lia) ltac:(lia)) as H.
  destruct (auroraWrite host p z iAmt iOfst w) as [[rc p'] w'].
  destruct H as (Hmem & Hd & Hmode & _ & _).
  rewrite auroraRead_mmap by (try congruence; lia).
  rewrite Hmem, Hd, Hz, Nat2Z.id, load_memcpy. reflexivity.
Qed.

(** X2.  Frame: a memory-backed write within capacity changes no byte
    outside the range it writes; a read of any range disjoint from it
    returns the same bytes after the write as before. *)
Theorem write_preserves_other_bytes
  (p : AuroraFile) (z : list byte) (iAmt iOfst n o : Z) (w : world) :
  isAurMmap p <> 0 -> size_ok p -> szMax p < 2 ^ 63 ->
  0 <= iOfst < 2 ^ 63 -> iAmt = Z.of_nat (List.length z) -> iAmt < 2 ^ 31 ->
  iOfst + iAmt <= szMax p ->
  0 <= n < 2 ^ 31 -> o + n <= iOfst \/ iOfst + iAmt <= o ->
  let '(rc, p', w') := auroraWrite host p z iAmt iOfst w in
  fst (auroraRead host p' n o w') = fst (auroraRead host p n o w).
Proof.
  intros Hm Hs Hc Ho Hz Ha Hle Hn Hdisj.
  pose proof (auroraWrite_accepted_state p z iAmt iOfst w Hm Hs Hc
                ltac:(unfold in_int64; lia) ltac:(lia) ltac:(lia)) as H.
  destruct (auroraWrite host p z iAmt iOfst w) as [[rc p'] w'].
  destruct H as (Hmem & Hd & Hmode & _ & _).
  rewrite !auroraRead_mmap by (try congruence; lia).
  cbn [fst]. rewrite Hmem, Hd. f_equal.
  apply load_bytes_ext. intros a Ha'. rewrite Z2Nat.id in Ha' by lia.
  apply memcpy_outside. lia.
Qed.

(** X3.  After a memory-backed truncate that grows the file within
    capacity, every read inside the grown part returns zero bytes. *)
Theorem truncate_grow_then_read
  (p : AuroraFile) (size n o : Z) (w : world) :
  isAurMmap p <> 0 -> size_ok p -> szMax p < 2 ^ 63 ->
  sz p < size <= szMax p ->
  0 <= n < 2 ^ 31 -> sz p <= o -> o + n <= size ->
  let '(rc, p', w') := auroraTruncate host p size w in
  rc = SQLITE_OK /\
  auroraRead host p' n o w' = (SQLITE_OK, repeat x00 (Z.to_nat n), w').
Proof.
  intros Hm [Hs0 Hs1] Hc Hsize Hn Ho1 Ho2. unfold auroraTruncate.
  rewrite (mmap_test p Hm).
  destruct (Z.gtb_spec size (sz p)) as [_ | Hle]; [| lia].
  destruct (Z.gtb_spec size (szMax p)) as [Hgt | _]; [lia |].
  rewrite uint64_sint64, uint64_small by lia.
  unfold bind, get_mem, put_mem, ret. cbv beta iota zeta.
  split; [reflexivity |].
  rewrite auroraRead_mmap by (try exact Hm; lia).
  cbn [mem set_mem aData set_sz]. f_equal. f_equal.
  apply load_bytes_const. intros a Ha. rewrite Z2Nat.id in Ha by lia.
  apply memset_inside. lia.
Qed.

(** X4.  A memory-backed write of zero bytes at an offset within capacity
    returns [SQLITE_OK] or a checkpoint failure, leaves every byte of
    memory as it was, and still moves the size up to the offset when the
    offset is beyond it. *)
Theorem write_empty_extends_size (p : AuroraFile) (iOfst : Z) (w : world) :
  isAurMmap p <> 0 -> size_ok p -> szMax p < 2 ^ 63 ->
  0 <= iOfst <= szMax p ->
  let '(rc, p', w') := auroraWrite host p [] 0 iOfst w in
  (rc = SQLITE_OK \/ rc = SQLITE_ERROR_SNAPSHOT) /\
  (forall a, mem w' a = mem w a) /\
  sz p' = Z.max (sz p) iOfst.
Proof.
  intros Hm Hs Hc Ho.
  pose proof (auroraWrite_accepted_state p [] 0 iOfst w Hm Hs Hc
                ltac:(unfold in_int64; lia) ltac:(lia) ltac:(lia)) as H.
  destruct (auroraWrite host p [] 0 iOfst w) as [[rc p'] w'].
  destruct H as (Hmem & _ & _ & Hsz & Hrc).
  split; [exact Hrc | split].
  - intros a. rewrite Hmem. apply memcpy_outside. lia.
  - rewrite Hsz. f_equal. lia.
Qed.

(** X5.  A memory-backed read does not look at the size: after a truncate
    that shrinks the file, any read, also one beyond the new size, returns
    [SQLITE_OK] and the bytes it returned before the truncate. *)
Theorem truncate_shrink_then_read
  (p : AuroraFile) (size n o : Z) (w : world) :
  isAurMmap p <> 0 -> size <= sz p ->
  let '(rc, p', w') := auroraTruncate host p size w in
  rc = SQLITE_OK /\ sz p' = size /\
  auroraRead host p' n o w' = auroraRead host p n o w /\
  fst (fst (auroraRead host p' n o w')) = SQLITE_OK.
Proof.
  intros Hm Hsize. unfold auroraTruncate. rewrite (mmap_test p Hm).
  destruct (Z.gtb_spec size (sz p)) as [Hgt | _]; [lia |].
  unfold ret. unfold auroraRead.
  cbn [isAurMmap aData sz set_sz]. rewrite (mmap_test p Hm).
  repeat split; reflexivity.
Qed.

(** X6.  The pointer handed out by a memory-backed fetch aliases the
    buffer: fetch makes no copy and no external call, and bytes written
    afterwards at the fetched offset are seen through the pointer. *)
Theorem fetch_sees_later_write
  (p : AuroraFile) (z : list byte) (iAmt iOfst : Z) (w : world) :
  isAurMmap p <> 0 -> size_ok p -> szMax p < 2 ^ 63 ->
  0 <= iOfst < 2 ^ 63 -> iAmt = Z.of_nat (List.length z) -> iAmt < 2 ^ 31 ->
  iOfst + iAmt <= szMax p ->
  let '(rc0, pp, w0) := auroraFetch host p iOfst iAmt w in
  rc0 = SQLITE_OK /\ w0 = w /\
  let '(rc, p', w') := auroraWrite host p z iAmt iOfst w0 in
  load_bytes (mem w') pp (List.length z) = z.
Proof.
  intros Hm Hs Hc Ho Hz Ha Hle. unfold auroraFetch.
  rewrite (mmap_test p Hm). cbn [negb]. unfold ret.
  split; [reflexivity | split; [reflexivity |]].
  pose proof (auroraWrite_accepted_state p z iAmt iOfst w Hm Hs Hc
                ltac:(unfold in_int64; lia) ltac:(lia) ltac:(lia)) as H.
  destruct (auroraWrite host p z iAmt iOfst w) as [[rc p'] w'].
  destruct H as (Hmem & _). rewrite Hmem, Hz. apply load_memcpy.
Qed.

(** X20.  A memory-backed write is checked against the capacity from above
    only.  When the end offset is negative the write is refused with
    [SQLITE_FULL] and nothing changes; when the offset is negative but the
    end offset is within capacity the write is accepted and stores its
    first byte below the start of the buffer. *)
Theorem write_negative_offset
  (p : AuroraFile) (z : list byte) (iAmt iOfst : Z) (w : world) :
  isAurMmap p <> 0 -> size_ok p -> szMax p < 2 ^ 63 ->
  - 2 ^ 63 <= iOfst < 0 -> iAmt = Z.of_nat (List.length z) -> iAmt < 2 ^ 31 ->
  (- 2 ^ 63 <= iOfst + iAmt < 0 ->
   auroraWrite host p z iAmt iOfst w = (SQLITE_FULL, p, w)) /\
  (0 <= iOfst + iAmt <= szMax p ->
   let '(rc, p', w') := auroraWrite host p z iAmt iOfst w in
   (rc = SQLITE_OK \/ rc = SQLITE_ERROR_SNAPSHOT) /\
   aData p + iOfst < aData p /\
   mem w' (aData p + iOfst) = nth 0 z x00 /\
   sz p' = Z.max (sz p) (iOfst + iAmt)).
Proof.
  intros Hm Hs Hc Ho Hz Ha. split.
  - intros Hneg. destruct Hs as [Hs0 Hs1]. unfold auroraWrite.
    rewrite (mmap_test p Hm), uint64_sint64, (uint64_small (szMax p)) by lia.
    assert (E : uint64 (iOfst + iAmt) = iOfst + iAmt + 2 ^ 64).
    { unfold uint64.
      rewrite <- (Z.mod_add (iOfst + iAmt) 1 (2 ^ 64)) by lia.
      rewrite Z.mod_small by lia. lia. }
    rewrite E.
    destruct (Z.gtb_spec (iOfst + iAmt + 2 ^ 64) (szMax p)); [reflexivity | lia].
  - intros Hin.
    pose proof (auroraWrite_accepted_state p z iAmt iOfst w Hm Hs Hc
                  ltac:(unfold in_int64; lia) ltac:(lia) Hin) as H.
    destruct (auroraWrite host p z iAmt iOfst w) as [[rc p'] w'].
    destruct H as (Hmem & _ & _ & Hsz & Hrc).
    repeat split; try assumption; try lia.
    rewrite Hmem, memcpy_inside by lia. f_equal. lia.
Qed.

End DataPathProps.

Ltac concrete :=
  first [reflexivity | unfold size_ok, in_int64, in_int32; simpl; lia].

Lemma write_then_read_witness :
  let '(rc, p', w') :=
    auroraWrite host_commit_fails file_mmap (repeat x2a 60) 60 0 world0 in
  auroraRead host_commit_fails p' 60 0 w' = (SQLITE_OK, repeat x2a 60, w').
Proof.
  apply (write_then_read host_commit_fails file_mmap (repeat x2a 60) 60 0 world0);
    concrete.
Defined.

Lemma write_preserves_other_bytes_witness :
  let '(rc, p', w') :=
    auroraWrite host_ok file_mmap [x01; x02; x03] 3 200 world0 in
  fst (auroraRead host_ok p' 8 203 w')
  = fst (auroraRead host_ok file_mmap 8 203 world0).
Proof.
  apply (write_preserves_other_bytes host_ok file_mmap [x01; x02; x03] 3 200
           8 203 world0); concrete.
Defined.

Lemma truncate_grow_then_read_witness :
  let '(rc, p', w') := auroraTruncate host_ok file_mmap 300 world0 in
  rc = SQLITE_OK /\
  auroraRead host_ok p' 4 296 w' = (SQLITE_OK, repeat x00 (Z.to_nat 4), w').
Proof.
  apply (truncate_grow_then_read host_ok file_mmap 300 4 296 world0); concrete.
Defined.

Lemma write_empty_extends_size_witness :
  let '(rc, p', w') := auroraWrite host_ok file_mmap [] 0 500 world0 in
  (rc = SQLITE_OK \/ rc = SQLITE_ERROR_SNAPSHOT) /\
  (forall a, mem w' a = mem world0 a) /\
  sz p' = Z.max (sz file_mmap) 500.
Proof.
  apply (write_empty_extends_size host_ok file_mmap 500 world0); concrete.
Defined.

Lemma truncate_shrink_then_read_witness :
  let '(rc, p', w') := auroraTruncate host_ok file_mmap 40 world0 in
  rc = SQLITE_OK /\ sz p' = 40 /\
  auroraRead host_ok p' 10 90 w' = auroraRead host_ok file_mmap 10 90 world0 /\
  fst (fst (auroraRead host_ok p' 10 90 w')) = SQLITE_OK.
Proof.
  apply (truncate_shrink_then_read host_ok file_mmap 40 10 90 world0); concrete.
Defined.

Lemma fetch_sees_later_write_witness :
  let '(rc0, pp, w0) := auroraFetch host_ok file_mmap 200 3 world0 in
  rc0 = SQLITE_OK /\ w0 = world0 /\
  let '(rc, p', w') := auroraWrite host_ok file_mmap [x01; x02; x03] 3 200 w0 in
  load_bytes (mem w') pp (List.length [x01; x02; x03]) = [x01; x02; x03].
Proof.
  apply (fetch_sees_later_write host_ok file_mmap [x01; x02; x03] 3 200 world0);
    concrete.
Defined.

Lemma write_negative_offset_witness :
  auroraWrite host_ok file_mmap [x01; x02] 2 (-5) world0
  = (SQLITE_FULL, file_mmap, world0) /\
  (let '(rc, p', w') := auroraWrite host_ok file_mmap [x01; x02] 2 (-1) world0 in
   (rc = SQLITE_OK \/ rc = SQLITE_ERROR_SNAPSHOT) /\
   aData file_mmap + -1 < aData file_mmap /\
   mem w' (aData file_mmap + -1) = nth 0 [x01; x02] x00 /\
   sz p' = Z.max (sz file_mmap) (-1 + 2)).
Proof.
  split.
  - apply (proj1 (write_negative_offset host_ok file_mmap [x01; x02] 2 (-5) world0
                    ltac:(concrete) ltac:(concrete) ltac:(concrete)
                    ltac:(concrete) ltac:(concrete) ltac:(concrete))).
    concrete.
  - apply (proj2 (write_negative_offset host_ok file_mmap [x01; x02] 2 (-1) world0
                    ltac:(concrete) ltac:(concrete) ltac:(concrete)
                    ltac:(concrete) ltac:(concrete) ltac:(concrete))).
    concrete.
Defined.

(** ** What the method table does in each mode *)

Section TableProps.

Variable host : list call -> call -> reply.

Ltac unfold_methods :=
  unfold aurora_io_methods, auroraClose, auroraRead, auroraWrite,
    auroraTruncate, auroraSync, auroraFileSize, auroraLock, auroraUnlock,
    auroraCheckReservedLock, auroraFileControl, auroraSectorSize,
    auroraDeviceCharacteristics, auroraShmMap, auroraShmLock,
    auroraShmBarrier, auroraShmUnmap, auroraFetch, auroraUnfetch.

Ltac run_io :=
  unfold bind, ret, extern, get_mem, put_mem; cbv beta iota zeta.

Ltac split_ifs :=
  repeat (match goal with
          | |- context [if ?c then _ else _] => destruct c
          end; cbv beta iota zeta).

Lemma fields_refl (p : AuroraFile) :
  p = set_szWritten (szWritten p) (set_sz (sz p) p).
Proof. destruct p. reflexivity. Qed.

Lemma fields_trans (p p1 p2 : AuroraFile) :
  p1 = set_szWritten (szWritten p1) (set_sz (sz p1) p) ->
  p2 = set_szWritten (szWritten p2) (set_sz (sz p2) p1) ->
  p2 = set_szWritten (szWritten p2) (set_sz (sz p2) p).
Proof.
  intros H1 H2. rewrite H2 at 1. rewrite H1 at 1.
  destruct p, p1, p2. reflexivity.
Qed.

(** One request changes at most the size and the counter of the handle. *)
Lemma aurora_io_methods_fields (req : io_request) (p : AuroraFile) (w : world) :
  let '(rc, p', w') := aurora_io_methods host req p w in
  p' = set_szWritten (szWritten p') (set_sz (sz p') p).
Proof.
  destruct req; unfold_methods; run_io; split_ifs;
    try apply fields_refl; destruct p; reflexivity.
Qed.

(** One request on a memory-backed handle logs nothing, or one commit. *)
Lemma aurora_io_methods_mmap_log (req : io_request) (p : AuroraFile) (w : world) :
  isAurMmap p <> 0 ->
  let '(rc, p', w') := aurora_io_methods host req p w in
  mainDbName w' = mainDbName w /\
  (calls w' = calls w \/
   calls w' = (calls w ++ [sas_trace_commit (fd p)])%list).
Proof.
  intros Hm. destruct req; unfold_methods; rewrite ?(mmap_test p Hm);
    cbn [negb]; run_io; split_ifs; cbn [calls mainDbName log_call set_mem fd
                                          set_sz set_szWritten];
    split; auto.
Qed.

(** X7.  A memory-backed handle never reaches the wrapped file: whatever
    requests the host makes through the method table, the only external
    calls are checkpoint commits on the handle's descriptor, at most one
    per request. *)
Theorem mmap_only_commits (reqs : list io_request) (p : AuroraFile) (w : world) :
  isAurMmap p <> 0 ->
  let '(rcs, p', w') := run_requests host reqs p w in
  exists k : nat,
    (k <= List.length reqs)%nat /\
    calls w' = (calls w ++ repeat (sas_trace_commit (fd p)) k)%list /\
    mainDbName w' = mainDbName w.
Proof.
  revert p w. induction reqs as [| req reqs IH]; intros p w Hm.
  - cbn [run_requests]. unfold ret. exists 0%nat.
    cbn [repeat List.length]. rewrite app_nil_r. auto.
  - cbn [run_requests]. unfold bind at 1.
    pose proof (aurora_io_methods_mmap_log req p w Hm) as Hlog.
    pose proof (aurora_io_methods_fields req p w) as Hf.
    destruct (aurora_io_methods host req p w) as [[rc p1] w1].
    destruct Hlog as [Hn Hlog]. cbn [snd fst].
    assert (Hm1 : isAurMmap p1 <> 0) by (rewrite Hf; exact Hm).
    assert (Hfd : fd p1 = fd p) by (rewrite Hf; reflexivity).
    specialize (IH p1 w1 Hm1). unfold bind, ret.
    destruct (run_requests host reqs p1 w1) as [[rcs p2] w2].
    destruct IH as (k & Hk & Hc & Hn2). rewrite Hfd in Hc.
    destruct Hlog as [Hlog | Hlog].
    + exists k. cbn [List.length]. rewrite Hc, Hlog, Hn2, Hn. auto.
    + exists (S k). cbn [List.length]. rewrite Hc, Hlog, Hn2, Hn, <- app_assoc.
      cbn [repeat app]. split; [lia | auto].
Qed.

(** X8.  On a delegated handle every entry of the method table makes
    exactly one call, to the method of the wrapped file with the same name
    and arguments, and touches neither the handle, nor memory, nor the
    recorded main database name.  The wrapped method's return value is
    handed back, except for lock and unlock, which answer [SQLITE_OK], and
    the barrier, which has no return value. *)
Theorem delegated_forwards (req : io_request) (p : AuroraFile) (w : world) :
  isAurMmap p = 0 ->
  let '(rc, p', w') := aurora_io_methods host req p w in
  p' = p /\ w' = log_call (wrapped_call req) w /\
  match req with
  | ReqLock _ | ReqUnlock _ | ReqShmBarrier => rc = SQLITE_OK
  | _ => rc = r_rc (host (calls w) (wrapped_call req))
  end.
Proof.
  intros Hm. destruct req; unfold_methods; rewrite Hm; cbn [Z.eqb negb];
    run_io; cbn [wrapped_call fst]; auto.
Qed.

(** X9.  Mode and configuration are fixed once the handle is open: after
    any sequence of requests the handle differs from the original at most
    in its size and its bytes-since-commit counter, and one status was
    produced per request. *)
Theorem requests_keep_configuration
  (reqs : list io_request) (p : AuroraFile) (w : world) :
  let '(rcs, p', w') := run_requests host reqs p w in
  p' = set_szWritten (szWritten p') (set_sz (sz p') p) /\
  List.length rcs = List.length reqs.
Proof.
  revert p w. induction reqs as [| req reqs IH]; intros p w.
  - cbn [run_requests]. unfold ret. split; [apply fields_refl | reflexivity].
  - cbn [run_requests]. unfold bind at 1.
    pose proof (aurora_io_methods_fields req p w) as Hf.
    destruct (aurora_io_methods host req p w) as [[rc p1] w1]. cbn [snd fst].
    specialize (IH p1 w1). unfold bind, ret.
    destruct (run_requests host reqs p1 w1) as [[rcs p2] w2].
    destruct IH as [IH Hlen]. cbn [fst snd List.length].
    split; [exact (fields_trans p p1 p2 Hf IH) | rewrite Hlen; reflexivity].
Qed.

(** X10.  The size stays within [0, capacity] along any sequence of
    requests on a handle that starts within it, as long as no truncate in
    the sequence asks for a negative size. *)
Theorem requests_keep_size_ok
  (reqs : list io_request) (p : AuroraFile) (w : world) :
  size_ok p -> szMax p < 2 ^ 63 ->
  (forall size, In (ReqTruncate size) reqs -> 0 <= size) ->
  let '(rcs, p', w') := run_requests host reqs p w in
  size_ok p' /\ szMax p' = szMax p.
Proof.
  revert p w. induction reqs as [| req reqs IH]; intros p w Hs Hc Hreq.
  - cbn [run_requests]. unfold ret. split; [exact Hs | reflexivity].
  - cbn [run_requests]. unfold bind at 1.
    pose proof (aurora_io_methods_size_ok host req p w Hs Hc) as H1.
    destruct (aurora_io_methods host req p w) as [[rc p1] w1]. cbn [snd fst].
    destruct H1 as [Hs1 Hc1].
    { intros size ->. apply Hreq. left. reflexivity. }
    assert (Hc1' : szMax p1 < 2 ^ 63) by (rewrite Hc1; exact Hc).
    specialize (IH p1 w1 Hs1 Hc1'
                  (fun size H => Hreq size (or_intror H))).
    unfold bind, ret.
    destruct (run_requests host reqs p1 w1) as [[rcs p2] w2].
    destruct IH as [IH1 IH2]. cbn [fst snd].
    split; [exact IH1 | rewrite IH2; exact Hc1].
Qed.

End TableProps.

Lemma mmap_only_commits_witness :
  let '(rcs, p', w') :=
    run_requests host_ok
      [ReqWrite (repeat x2a 60) 60 0; ReqLock 1; ReqRead 10 0; ReqSync 0;
       ReqClose] file_mmap world0 in
  exists k : nat,
    (k <= 5)%nat /\
    calls w' = (calls world0 ++ repeat (sas_trace_commit (fd file_mmap)) k)%list /\
    mainDbName w' = mainDbName world0.
Proof.
  apply (mmap_only_commits host_ok
           [ReqWrite (repeat x2a 60) 60 0; ReqLock 1; ReqRead 10 0; ReqSync 0;
            ReqClose] file_mmap world0).
  concrete.
Defined.

Lemma delegated_forwards_witness :
  let '(rc, p', w') :=
    aurora_io_methods host_busy (ReqWrite [x01] 1 0) file_real world0 in
  p' = file_real /\ w' = log_call (xWrite [x01] 1 0) world0 /\
  rc = r_rc (host_busy (calls world0) (xWrite [x01] 1 0)).
Proof.
  apply (delegated_forwards host_busy (ReqWrite [x01] 1 0) file_real world0).
  concrete.
Defined.

Lemma requests_keep_size_ok_witness :
  let '(rcs, p', w') :=
    run_requests host_ok
      [ReqTruncate 0; ReqWrite [x01; x02] 2 999; ReqWrite [x01; x02] 2 998;
       ReqTruncate 2000] file_mmap world0 in
  size_ok p' /\ szMax p' = szMax file_mmap.
Proof.
  apply (requests_keep_size_ok host_ok
           [ReqTruncate 0; ReqWrite [x01; x02] 2 999; ReqWrite [x01; x02] 2 998;
            ReqTruncate 2000] file_mmap world0); try concrete.
  intros size [H | [H | [H | [H | []]]]]; try discriminate H;
    injection H as <-; lia.
Defined.

(** ** The checkpoint counter *)

Section CounterProps.

Variable host : list call -> call -> reply.

Ltac run_io :=
  unfold bind, ret, extern, get_mem, put_mem; cbv beta iota zeta.

(** X11.  The bytes-since-commit counter never goes down except to zero,
    and it goes to zero only in a request that made a checkpoint commit
    which succeeded and that itself returned [SQLITE_OK]. *)
Theorem counter_resets_only_on_commit
  (req : io_request) (p : AuroraFile) (w : world) :
  0 <= szWritten p ->
  (forall z iAmt iOfst, req = ReqWrite z iAmt iOfst ->
                        0 <= iAmt /\ szWritten p + iAmt < 2 ^ 63) ->
  let commit := sas_trace_commit (fd p) in
  let '(rc, p', w') := aurora_io_methods host req p w in
  szWritten p <= szWritten p' \/
  (szWritten p' = 0 /\ rc = SQLITE_OK /\
   calls w' = (calls w ++ [commit])%list /\
   0 <= r_rc (host (calls w) commit)).
Proof.
  intros Hw Hreq commit.
  assert (Hkeep : forall (A : Type) (m : io A) (f : A -> Z),
             let '(rc, p', w') := bind m (fun r => ret (f r, p)) w in
             szWritten p <= szWritten p' \/
             (szWritten p' = 0 /\ rc = SQLITE_OK /\
              calls w' = (calls w ++ [commit])%list /\
              0 <= r_rc (host (calls w) commit))).
  { intros A m f. unfold bind, ret. destruct (m w). left. lia. }
  destruct req; cbn [aurora_io_methods];
    try (apply (Hkeep _ _ (fun rc : Z => rc)));
    try (apply (Hkeep _ _ (fun r => fst r)));
    try (apply (Hkeep _ _ (fun _ : unit => SQLITE_OK))).
  - destruct (Hreq z iAmt iOfst eq_refl) as [Ha Hsum].
    unfold auroraWrite.
    destruct (isAurMmap p =? 0); [run_io; left; lia |].
    destruct (_ >? uint64 (szMax p)); [run_io; left; lia |].
    run_io. cbn [szThreshold szWritten fd set_sz set_szWritten calls set_mem].
    rewrite (sint64_small (szWritten p + iAmt)) by (unfold in_int64; lia).
    destruct (szThreshold p =? 0);
      [cbv beta iota; cbn [szWritten set_szWritten]; left; lia |].
    destruct (uint64 (szWritten p + iAmt) >? szThreshold p);
      [| cbv beta iota; cbn [szWritten set_szWritten]; left; lia].
    cbn [calls set_mem]. fold commit.
    destruct (Z.ltb_spec (r_rc (host (calls w) commit)) 0) as [Hf | Hok];
      cbv beta iota; cbn [szWritten set_szWritten calls log_call];
      [left; lia | right; auto].
  - unfold auroraTruncate.
    destruct (isAurMmap p =? 0); [run_io; left; lia |].
    destruct (size >? sz p); [destruct (size >? szMax p) |];
      run_io; cbn [szWritten set_sz]; left; lia.
  - unfold auroraSync.
    destruct (isAurMmap p =? 0); [run_io; left; lia |].
    destruct (_ || _); [run_io; left; lia |].
    run_io. fold commit.
    destruct (Z.ltb_spec (r_rc (host (calls w) commit)) 0) as [Hf | Hok];
      cbv beta iota; cbn [szWritten set_szWritten calls log_call];
      [left; lia | right; auto].
Qed.

(** X17.  Statuses of the three mutating methods on a memory-backed
    handle, for all arguments.  A write returns [SQLITE_OK],
    [SQLITE_FULL] or [SQLITE_ERROR_SNAPSHOT]; a truncate [SQLITE_OK] or
    [SQLITE_FULL]; a sync [SQLITE_OK] or [SQLITE_ERROR_SNAPSHOT].
    [SQLITE_FULL] always comes with the handle and the process unchanged,
    and [SQLITE_ERROR_SNAPSHOT] always with a commit just logged. *)
Theorem mmap_statuses
  (p : AuroraFile) (z : list byte) (iAmt iOfst size flags : Z) (w : world) :
  isAurMmap p <> 0 ->
  let commit := sas_trace_commit (fd p) in
  (let '(rc, p', w') := auroraWrite host p z iAmt iOfst w in
   rc = SQLITE_OK \/ (rc = SQLITE_FULL /\ p' = p /\ w' = w) \/
   (rc = SQLITE_ERROR_SNAPSHOT /\ calls w' = (calls w ++ [commit])%list)) /\
  (let '(rc, p', w') := auroraTruncate host p size w in
   rc = SQLITE_OK \/ (rc = SQLITE_FULL /\ p' = p /\ w' = w)) /\
  (let '(rc, p', w') := auroraSync host p flags w in
   rc = SQLITE_OK \/
   (rc = SQLITE_ERROR_SNAPSHOT /\ p' = p /\ w' = log_call commit w)).
Proof.
  intros Hm commit. split; [| split].
  - unfold auroraWrite. rewrite (mmap_test p Hm).
    destruct (_ >? uint64 (szMax p)); [run_io; auto |].
    run_io. cbn [szThreshold szWritten fd set_sz set_szWritten calls set_mem].
    destruct (szThreshold p =? 0); [cbv beta iota; auto |].
    destruct (_ >? szThreshold p); [| cbv beta iota; auto].
    destruct (_ <? 0); cbv beta iota; cbn [calls log_call]; auto.
  - unfold auroraTruncate. rewrite (mmap_test p Hm).
    destruct (size >? sz p); [destruct (size >? szMax p) |]; run_io; auto.
  - unfold auroraSync. rewrite (mmap_test p Hm).
    destruct (_ || _); [run_io; auto |].
    run_io. destruct (_ <? 0); cbv beta iota; auto.
Qed.

(** X15.  Sync is idempotent once it has succeeded: after a memory-backed
    sync that returned [SQLITE_OK], a second sync makes no external call,
    changes nothing and returns [SQLITE_OK]. *)
Theorem sync_after_sync (p : AuroraFile) (flags flags' : Z) (w : world) :
  isAurMmap p <> 0 ->
  let '(rc, p', w') := auroraSync host p flags w in
  rc = SQLITE_OK -> auroraSync host p' flags' w' = (SQLITE_OK, p', w').
Proof.
  intros Hm. unfold auroraSync at 1. rewrite (mmap_test p Hm).
  destruct (negb (bCkptOnSync p) || (szWritten p =? 0)) eqn:E.
  - run_io. intros _. unfold auroraSync. rewrite (mmap_test p Hm), E. reflexivity.
  - run_io. destruct (_ <? 0); cbv beta iota.
    + intros H. discriminate H.
    + intros _. unfold auroraSync.
      cbn [isAurMmap bCkptOnSync szWritten set_szWritten].
      rewrite (mmap_test p Hm). cbn [Z.eqb]. rewrite orb_true_r. reflexivity.
Qed.

(** X16.  A failed checkpoint stays owed.  After a memory-backed sync that
    returned [SQLITE_ERROR_SNAPSHOT], and after a memory-backed write that
    returned it on a handle with checkpoint-on-sync enabled, the next sync
    calls the commit again. *)
Theorem failed_commit_is_retried
  (p : AuroraFile) (z : list byte) (iAmt iOfst flags flags' : Z) (w : world) :
  isAurMmap p <> 0 -> 0 <= szThreshold p ->
  let commit := sas_trace_commit (fd p) in
  (let '(rc, p', w') := auroraSync host p flags w in
   rc = SQLITE_ERROR_SNAPSHOT ->
   calls (snd (auroraSync host p' flags' w')) = (calls w' ++ [commit])%list) /\
  (let '(rc, p', w') := auroraWrite host p z iAmt iOfst w in
   rc = SQLITE_ERROR_SNAPSHOT -> bCkptOnSync p = true ->
   calls (snd (auroraSync host p' flags' w')) = (calls w' ++ [commit])%list).
Proof.
  intros Hm Ht commit. split.
  - unfold auroraSync at 1. rewrite (mmap_test p Hm).
    destruct (negb (bCkptOnSync p) || (szWritten p =? 0)) eqn:E.
    + run_io. intros H. discriminate H.
    + run_io. destruct (_ <? 0); cbv beta iota; [| intros H; discriminate H].
      intros _. unfold auroraSync. rewrite (mmap_test p Hm), E.
      run_io. destruct (_ <? 0); reflexivity.
  - unfold auroraWrite. rewrite (mmap_test p Hm).
    destruct (_ >? uint64 (szMax p)); [run_io; intros H; discriminate H |].
    run_io. cbn [szThreshold szWritten fd set_sz set_szWritten calls set_mem].
    destruct (szThreshold p =? 0); [cbv beta iota; intros H; discriminate H |].
    destruct (Z.gtb_spec (uint64 (sint64 (szWritten p + iAmt))) (szThreshold p))
      as [Hgt | _]; [| cbv beta iota; intros H; discriminate H].
    destruct (_ <? 0); cbv beta iota; [| intros H; discriminate H].
    intros _ Hon. unfold auroraSync.
    cbn [isAurMmap bCkptOnSync szWritten fd set_sz set_szWritten].
    rewrite (mmap_test p Hm), Hon. cbn [negb orb].
    destruct (Z.eqb_spec (sint64 (szWritten p + iAmt)) 0) as [E0 | _].
    + rewrite E0 in Hgt. unfold uint64 in Hgt. rewrite Z.mod_0_l in Hgt by lia. lia.
    + run_io. destruct (_ <? 0); reflexivity.
Qed.

End CounterProps.

Lemma counter_resets_only_on_commit_witness :
  let commit := sas_trace_commit (fd file_mmap) in
  let '(rc, p', w') :=
    aurora_io_methods host_ok (ReqWrite (repeat x2a 60) 60 0) file_mmap world0 in
  szWritten file_mmap <= szWritten p' \/
  (szWritten p' = 0 /\ rc = SQLITE_OK /\
   calls w' = (calls world0 ++ [commit])%list /\
   0 <= r_rc (host_ok (calls world0) commit)).
Proof.
  apply (counter_resets_only_on_commit host_ok (ReqWrite (repeat x2a 60) 60 0)
           file_mmap world0); try concrete.
  intros z iAmt iOfst H. injection H as _ <- _. concrete.
Defined.

Lemma mmap_statuses_witness :
  let commit := sas_trace_commit (fd file_mmap) in
  (let '(rc, p', w') :=
     auroraWrite host_commit_fails file_mmap (repeat x2a 60) 60 0 world0 in
   rc = SQLITE_OK \/ (rc = SQLITE_FULL /\ p' = file_mmap /\ w' = world0) \/
   (rc = SQLITE_ERROR_SNAPSHOT /\
    calls w' = (calls world0 ++ [commit])%list)) /\
  (let '(rc, p', w') := auroraTruncate host_commit_fails file_mmap 2000 world0 in
   rc = SQLITE_OK \/ (rc = SQLITE_FULL /\ p' = file_mmap /\ w' = world0)) /\
  (let '(rc, p', w') := auroraSync host_commit_fails file_mmap 0 world0 in
   rc = SQLITE_OK \/
   (rc = SQLITE_ERROR_SNAPSHOT /\ p' = file_mmap /\
    w' = log_call commit world0)).
Proof.
  apply (mmap_statuses host_commit_fails file_mmap (repeat x2a 60) 60 0 2000 0
           world0).
  concrete.
Defined.

Lemma sync_after_sync_witness :
  let '(rc, p', w') := auroraSync host_ok (set_szWritten 10 file_mmap) 0 world0 in
  rc = SQLITE_OK /\ auroraSync host_ok p' 0 w' = (SQLITE_OK, p', w').
Proof.
  pose proof (sync_after_sync host_ok (set_szWritten 10 file_mmap) 0 0 world0
                ltac:(concrete)) as H.
  destruct (auroraSync host_ok (set_szWritten 10 file_mmap) 0 world0)
    as [[rc p'] w'] eqn:E.
  assert (Hrc : rc = SQLITE_OK) by (vm_compute in E; injection E as <- _ _; reflexivity).
  split; [exact Hrc | exact (H Hrc)].
Defined.

Lemma failed_commit_is_retried_witness :
  let '(rc, p', w') :=
    auroraWrite host_commit_fails file_mmap (repeat x2a 60) 60 0 world0 in
  rc = SQLITE_ERROR_SNAPSHOT /\
  calls (snd (auroraSync host_commit_fails p' 0 w'))
  = (calls w' ++ [sas_trace_commit (fd file_mmap)])%list.
Proof.
  pose proof (proj2 (failed_commit_is_retried host_commit_fails file_mmap
                       (repeat x2a 60) 60 0 0 0 world0
                       ltac:(concrete) ltac:(concrete))) as H.
  hnf. split; [reflexivity | exact (H eq_refl eq_refl)].
Defined.

(** ** What an open leaves behind *)

Lemma uri_int64_range (zName : filename) (k : string) (d : Z) :
  in_int64 (sqlite3_uri_int64 zName k d).
Proof.
  unfold sqlite3_uri_int64. destruct (uri_value zName k); apply sint64_range.
Qed.

Section OpenOutcomeProps.

Variable host : list call -> call -> reply.

Lemma methods_installed (rc : Z) (q : AuroraFile) :
  pMethods q = false ->
  pMethods (if rc =? 0 then set_pMethods true q else q) = true <-> rc = SQLITE_OK.
Proof.
  intros Hq. unfold SQLITE_OK. destruct (Z.eqb_spec rc 0) as [E | E].
  - split; [intros _; exact E | reflexivity].
  - rewrite Hq. split; [intros H; discriminate H | intros H; contradiction].
Qed.

(** X12.  A memory-backed open of a named file that returns [SQLITE_OK]
    hands over a handle in its initial invariant: a non-null buffer
    address, a size between 0 and the capacity, a zero bytes-since-commit
    counter, a non-zero checkpoint descriptor and the methods installed.
    When the blocks the host allocates for the copies of the name hold
    more than the [strlen] bytes asked for, the name is copied into the
    handle and recorded as main database name, with no undefined
    behaviour; when they hold the bytes asked for and no more, the open
    has stored the terminator of the name past the end of its block. *)
Theorem open_establishes_invariant (zName : filename) (flags : Z) (w : world) :
  Z.land flags SQLITE_OPEN_MAIN_DB <> 0 ->
  let '(rc, p, w') := auroraOpen host zName flags w in
  rc = SQLITE_OK ->
  (isAurMmap p <> 0 /\ aData p <> 0 /\ size_ok p /\ szMax p < 2 ^ 63 /\
   szWritten p = 0 /\ 0 <= szThreshold p < 2 ^ 64 /\ fd p <> 0 /\
   pMethods p = true) /\
  (name_fits host (uri_path zName) ->
   fileName p = Some (uri_path zName) /\
   mainDbName w' = Some (uri_path zName) /\
   undefined w' = undefined w) /\
  (name_overflows host (uri_path zName) -> undefined w' = true).
Proof.
  intros Hflag.
  destruct (auroraOpen_mmap_cases host zName flags w Hflag)
    as [(_ & E) | [(_ & _ & E) | [(_ & _ & _ & E) | [(_ & _ & _ & E)
        | [(_ & _ & _ & _ & E)
           | (H1 & H2 & H3 & _ & n1 & n2 & u & E & Hfit & Hov)]]]]];
    rewrite E; clear E; try (intros H; discriminate H).
  intros Hrc. unfold SQLITE_OK in Hrc. rewrite Hrc. cbn [Z.eqb].
  unfold size_ok.
  cbn [isAurMmap aData sz szMax szWritten szThreshold fd pMethods fileName
       set_pMethods set_fileName set_bCkptOnSync set_szThreshold set_fd
       set_szMax set_sz set_aData set_isAurMmap AuroraFile_zero
       mainDbName undefined].
  pose proof (uri_int64_range zName "max" (sqlite3_uri_int64 zName "sz" (-1))) as Hr.
  pose proof (uint64_range (sqlite3_uri_int64 zName "threshold" 0)) as Ht.
  unfold in_int64 in Hr.
  split; [repeat split; try assumption; try reflexivity; lia | split].
  - intros Hn. destruct (Hfit Hn) as (-> & -> & ->).
    repeat split; reflexivity.
  - exact Hov.
Qed.

(** X13.  For every open, a NULL name included: the mode is decided by the
    main-database flag alone, and the methods are installed exactly when
    the open returns [SQLITE_OK].  A delegated open reads no configuration,
    starts no checkpoint session, records no name, and makes exactly one
    call, the wrapped open, whose status it returns; after that call it
    copies the name, which is undefined behaviour for a NULL name, leaves
    the name in the handle when the block allocated for the copy holds
    more than the [strlen] bytes asked for, and stores the terminator past
    the end of the block when the host's blocks hold no more than that.  A
    memory-backed open with a NULL name returns [SQLITE_CANTOPEN] and does
    nothing else. *)
Theorem open_mode_and_methods (zName : zname) (flags : Z) (w : world) :
  let '(rc, p, w') := auroraOpen host zName flags w in
  isAurMmap p = Z.land flags SQLITE_OPEN_MAIN_DB /\
  (pMethods p = true <-> rc = SQLITE_OK) /\
  (isAurMmap p = 0 ->
   rc = r_rc (host (calls w) (xOpen zName flags)) /\
   calls w' = (calls w ++ [xOpen zName flags])%list /\
   mem w' = mem w /\ mainDbName w' = mainDbName w /\
   aData p = 0 /\ sz p = 0 /\ szMax p = 0 /\ fd p = 0 /\
   szThreshold p = 0 /\ bCkptOnSync p = false /\
   (zName = None -> undefined w' = true) /\
   (forall f : filename, zName = Some f ->
      (room_at host (calls w') (uri_path f) ->
       fileName p = Some (uri_path f) /\ undefined w' = undefined w) /\
      (name_overflows host (uri_path f) -> undefined w' = true))) /\
  (zName = None -> isAurMmap p <> 0 -> rc = SQLITE_CANTOPEN /\ w' = w).
Proof.
  assert (Hif : forall (b : bool) (q : AuroraFile),
             isAurMmap (if b then set_pMethods true q else q) = isAurMmap q /\
             aData (if b then set_pMethods true q else q) = aData q /\
             sz (if b then set_pMethods true q else q) = sz q /\
             szMax (if b then set_pMethods true q else q) = szMax q /\
             fd (if b then set_pMethods true q else q) = fd q /\
             szThreshold (if b then set_pMethods true q else q) = szThreshold q /\
             bCkptOnSync (if b then set_pMethods true q else q) = bCkptOnSync q /\
             fileName (if b then set_pMethods true q else q) = fileName q)
    by (intros [] q; repeat split; reflexivity).
  destruct (Z.eq_dec (Z.land flags SQLITE_OPEN_MAIN_DB) 0) as [E0 | Hflag].
  - destruct (auroraOpen_delegated host zName flags w E0)
      as (n & u & E & Hnull & Hnamed).
    rewrite E; clear E. cbv zeta in *.
    set (rcx := r_rc (host (calls w) (xOpen zName flags))) in *.
    set (q := set_fileName n (set_isAurMmap (Z.land flags SQLITE_OPEN_MAIN_DB)
                                AuroraFile_zero)).
    destruct (Hif (rcx =? 0) q) as (H1 & H2 & H3 & H4 & H5 & H6 & H7 & H8).
    rewrite H1, H2, H3, H4, H5, H6, H7, H8.
    cbn [calls mem mainDbName undefined].
    split; [reflexivity | split; [apply methods_installed; reflexivity | split]].
    + intros _. repeat split; try reflexivity.
      * intros Hz. exact (proj2 (Hnull Hz)).
      * exact (proj1 (proj1 (Hnamed f H) H0)).
      * exact (proj2 (proj1 (Hnamed f H) H0)).
      * exact (proj2 (Hnamed f H)).
    + intros _ H. unfold q in H. cbn in H. rewrite E0 in H. contradiction.
  - destruct zName as [f |].
    + destruct (auroraOpen_mmap_cases host f flags w Hflag)
        as [(_ & E) | [(_ & _ & E) | [(_ & _ & _ & E) | [(_ & _ & _ & E)
            | [(_ & _ & _ & _ & E)
               | (_ & _ & _ & _ & n1 & n2 & u & E & _)]]]]];
        unfold named in E; rewrite E; clear E;
        try (cbn [isAurMmap pMethods set_fd set_szMax set_sz set_aData
                  set_isAurMmap AuroraFile_zero];
             split; [reflexivity | split; [split; intros H; discriminate H |]];
             split; [intros H; contradiction | intros H; discriminate H]).
      set (rcx := r_rc _). set (q := set_fileName n2 _).
      destruct (Hif (rcx =? 0) q) as (H1 & _).
      rewrite H1.
      split; [reflexivity | split; [apply methods_installed; reflexivity |]].
      split; [intros H; unfold q in H; cbn in H; contradiction
             | intros H; discriminate H].
    + unfold auroraOpen. apply Z.eqb_neq in Hflag. rewrite Hflag.
      cbn [negb]. unfold ret.
      cbn [isAurMmap pMethods sqlite3_uri_int64 uri_value aData set_aData
           set_isAurMmap AuroraFile_zero].
      change (uint64 (sint64 0) =? 0) with true. cbv beta iota.
      cbn [isAurMmap pMethods set_aData set_isAurMmap AuroraFile_zero].
      split; [reflexivity | split; [split; intros H; discriminate H |]].
      apply Z.eqb_neq in Hflag.
      split; [intros H; contradiction | intros _ _; split; reflexivity].
Qed.

End OpenOutcomeProps.

Lemma open_establishes_invariant_witness :
  (let '(rc, p, w') := auroraOpen host_ok name_max SQLITE_OPEN_MAIN_DB world0 in
   rc = SQLITE_OK /\ size_ok p /\ szWritten p = 0 /\
   mainDbName w' = Some (uri_path name_max) /\ undefined w' = false) /\
  (let '(rc, p, w') :=
     auroraOpen host_exact name_max SQLITE_OPEN_MAIN_DB world0 in
   rc = SQLITE_OK /\ undefined w' = true).
Proof.
  split.
  - pose proof (open_establishes_invariant host_ok name_max SQLITE_OPEN_MAIN_DB
                  world0 ltac:(concrete)) as H.
    destruct (auroraOpen host_ok name_max SQLITE_OPEN_MAIN_DB world0)
      as [[rc p] w'] eqn:E.
    assert (Hrc : rc = SQLITE_OK)
      by (vm_compute in E; injection E as <- _ _; reflexivity).
    destruct (H Hrc) as ((_ & _ & Hs & _ & Hw & _) & Hname & _).
    destruct (Hname name_fits_db) as (_ & Hn & Hu).
    split; [exact Hrc | split; [exact Hs | split; [exact Hw | split; assumption]]].
  - pose proof (open_establishes_invariant host_exact name_max
                  SQLITE_OPEN_MAIN_DB world0 ltac:(concrete)) as H.
    destruct (auroraOpen host_exact name_max SQLITE_OPEN_MAIN_DB world0)
      as [[rc p] w'] eqn:E.
    assert (Hrc : rc = SQLITE_OK)
      by (vm_compute in E; injection E as <- _ _; reflexivity).
    destruct (H Hrc) as (_ & _ & Hov).
    split; [exact Hrc | exact (Hov name_overflows_db)].
Defined.

Lemma open_mode_and_methods_witness :
  (let '(rc, p, w') :=
     auroraOpen host_open_fails (mkName "/db-journal" []) 0 world0 in
   isAurMmap p = 0 /\ rc = SQLITE_CANTOPEN /\
   fileName p = Some "/db-journal" /\ undefined w' = false) /\
  (let '(rc, p, w') := auroraOpen host_ok None 0 world0 in
   rc = SQLITE_OK /\ calls w' = [xOpen None 0] /\ undefined w' = true).
Proof.
  split.
  - pose proof (open_mode_and_methods host_open_fails
                  (mkName "/db-journal" []) 0 world0) as H.
    destruct (auroraOpen host_open_fails (mkName "/db-journal" []) 0 world0)
      as [[rc p] w'].
    destruct H as (Hm & _ & Hd & _).
    destruct (Hd Hm) as (Hrc & _ & _ & _ & _ & _ & _ & _ & _ & _ & _ & Hn).
    destruct (proj1 (Hn (mkName "/db-journal" []) eq_refl)
                (name_fits_journal _)) as [Hf Hu].
    repeat split; assumption.
  - pose proof (open_mode_and_methods host_ok None 0 world0) as H.
    destruct (auroraOpen host_ok None 0 world0) as [[rc p] w'].
    destruct H as (Hm & _ & Hd & _).
    destruct (Hd Hm) as (Hrc & Hc & _ & _ & _ & _ & _ & _ & _ & _ & Hnull & _).
    split; [exact Hrc | split; [exact Hc | exact (Hnull eq_refl)]].
Defined.

(** ** Checkpoint switches, access, path names, registration *)

Section SwitchProps.

Variable host : list call -> call -> reply.

Lemma auroraWrite_threshold_zero
  (p : AuroraFile) (z : list byte) (iAmt iOfst : Z) (w : world) :
  isAurMmap p <> 0 -> szThreshold p = 0 ->
  calls (snd (auroraWrite host p z iAmt iOfst w)) = calls w.
Proof.
  intros Hm Ht. unfold auroraWrite. rewrite (mmap_test p Hm).
  destruct (_ >? uint64 (szMax p)); [reflexivity |].
  unfold bind, get_mem, put_mem, ret. cbv beta iota zeta.
  cbn [szThreshold set_sz set_szWritten]. rewrite Ht. reflexivity.
Qed.

Lemma auroraSync_switched_off (p : AuroraFile) (flags : Z) (w : world) :
  isAurMmap p <> 0 -> bCkptOnSync p = false ->
  auroraSync host p flags w = (SQLITE_OK, p, w).
Proof.
  intros Hm Hoff. unfold auroraSync. rewrite (mmap_test p Hm), Hoff. reflexivity.
Qed.

Lemma auroraSync_switched_on (p : AuroraFile) (flags : Z) (w : world) :
  isAurMmap p <> 0 -> bCkptOnSync p = true -> szWritten p <> 0 ->
  calls (snd (auroraSync host p flags w))
  = (calls w ++ [sas_trace_commit (fd p)])%list.
Proof.
  intros Hm Hon Hpend. unfold auroraSync.
  rewrite (mmap_test p Hm), Hon.
  destruct (Z.eqb_spec (szWritten p) 0) as [E | _]; [contradiction |].
  cbn [negb orb]. unfold bind, extern, ret. cbv beta iota zeta.
  destruct (_ <? 0); reflexivity.
Qed.

(** X14.  How the optional keys of the name switch checkpointing on a
    handle opened as main database under a name whose copies fit their
    blocks, in whatever state the handle is later (any size, any number of
    bytes pending since the last commit).  Without
    [threshold], or with [threshold=0], no write ever calls the commit.
    With [ckptOnSync] zero or negative, every sync returns [SQLITE_OK]
    without any call, also with bytes pending.  Without [ckptOnSync], or
    with a positive one, after a successful open every sync with bytes
    pending calls the commit. *)
Theorem open_checkpoint_switches (zName : filename) (flags : Z) (w : world) :
  Z.land flags SQLITE_OPEN_MAIN_DB <> 0 -> wf_filename zName ->
  name_fits host (uri_path zName) ->
  let '(rc, p, w1) := auroraOpen host zName flags w in
  ((uri_value zName "threshold" = None \/ uri_value zName "threshold" = Some 0) ->
   forall pending size z iAmt iOfst w2,
     calls (snd (auroraWrite host (set_szWritten pending (set_sz size p))
                   z iAmt iOfst w2)) = calls w2) /\
  ((exists v, uri_value zName "ckptOnSync" = Some v /\ v <= 0) ->
   forall pending size flags' w2,
     auroraSync host (set_szWritten pending (set_sz size p)) flags' w2
     = (SQLITE_OK, set_szWritten pending (set_sz size p), w2)) /\
  ((uri_value zName "ckptOnSync" = None \/
    exists v, uri_value zName "ckptOnSync" = Some v /\ 0 < v) ->
   rc = SQLITE_OK ->
   forall pending size flags' w2, pending <> 0 ->
     calls (snd (auroraSync host (set_szWritten pending (set_sz size p))
                   flags' w2))
     = (calls w2 ++ [sas_trace_commit (fd p)])%list).
Proof.
  intros Hflag Hwf Hfits.
  destruct (auroraOpen_mmap_cases host zName flags w Hflag)
    as [(_ & E) | [(_ & _ & E) | [(_ & _ & _ & E) | [(_ & _ & _ & E)
        | [(_ & _ & _ & _ & E)
           | (_ & _ & _ & _ & n1 & n2 & u & E & _)]]]]];
    rewrite E; clear E;
    try (cbv beta iota zeta;
         split; [intros _; intros; apply auroraWrite_threshold_zero;
                 [exact Hflag | reflexivity]
                | split; [intros _; intros; apply auroraSync_switched_off;
                          [exact Hflag | reflexivity]
                         | intros _ H; discriminate H]]).
  set (rcx := r_rc (host _ (xOpen zName flags))).
  set (q := set_fileName n2 _).
  assert (Hsame : isAurMmap (if rcx =? 0 then set_pMethods true q else q)
                  = Z.land flags SQLITE_OPEN_MAIN_DB /\
                  szThreshold (if rcx =? 0 then set_pMethods true q else q)
                  = uint64 (sqlite3_uri_int64 zName "threshold" 0) /\
                  bCkptOnSync (if rcx =? 0 then set_pMethods true q else q)
                  = (sqlite3_uri_int64 zName "ckptOnSync" 1 >? 0))
    by (destruct (rcx =? 0); repeat split; reflexivity).
  destruct Hsame as (Hm & Ht & Hb).
  split; [| split].
  - intros Hthr pending size z iAmt iOfst w2.
    apply auroraWrite_threshold_zero.
    + cbn [isAurMmap set_szWritten set_sz]. rewrite Hm. exact Hflag.
    + cbn [szThreshold set_szWritten set_sz]. rewrite Ht.
      destruct Hthr as [Hthr | Hthr].
      * rewrite (uri_int64_none _ _ _ Hthr). reflexivity.
      * rewrite (uri_int64_some _ _ _ _ Hthr). reflexivity.
  - intros (v & Hv & Hle) pending size flags' w2.
    apply auroraSync_switched_off.
    + cbn [isAurMmap set_szWritten set_sz]. rewrite Hm. exact Hflag.
    + cbn [bCkptOnSync set_szWritten set_sz]. rewrite Hb.
      rewrite (uri_int64_some _ _ _ _ Hv), (sint64_small v (Hwf _ _ Hv)).
      destruct (Z.gtb_spec v 0); [lia | reflexivity].
  - intros Hon _ pending size flags' w2 Hpend.
    replace (fd (if rcx =? 0 then set_pMethods true q else q))
      with (fd (set_szWritten pending
                  (set_sz size (if rcx =? 0 then set_pMethods true q else q))))
      by reflexivity.
    apply auroraSync_switched_on.
    + cbn [isAurMmap set_szWritten set_sz]. rewrite Hm. exact Hflag.
    + cbn [bCkptOnSync set_szWritten set_sz]. rewrite Hb.
      destruct Hon as [Hon | (v & Hv & Hpos)].
      * rewrite (uri_int64_none _ _ _ Hon). reflexivity.
      * rewrite (uri_int64_some _ _ _ _ Hv), (sint64_small v (Hwf _ _ Hv)).
        destruct (Z.gtb_spec v 0); [reflexivity | lia].
    + exact Hpend.
Qed.

(** An open of a name whose copies fit their blocks executes nothing
    undefined. *)
Lemma auroraOpen_stays_defined (zName : filename) (flags : Z) (w : world) :
  name_fits host (uri_path zName) ->
  undefined (snd (auroraOpen host zName flags w)) = undefined w.
Proof.
  intros Hfits.
  destruct (Z.eq_dec (Z.land flags SQLITE_OPEN_MAIN_DB) 0) as [E0 | Hflag].
  - destruct (auroraOpen_delegated host zName flags w E0)
      as (n & u & E & _ & Hnamed).
    rewrite E. cbn [snd undefined].
    exact (proj2 (proj1 (Hnamed zName eq_refl) (Hfits _))).
  - destruct (auroraOpen_mmap_cases host zName flags w Hflag)
      as [(_ & E) | [(_ & _ & E) | [(_ & _ & _ & E) | [(_ & _ & _ & E)
          | [(_ & _ & _ & _ & E)
             | (_ & _ & _ & _ & n1 & n2 & u & E & Hfit & _)]]]]];
      rewrite E; clear E; try reflexivity.
    cbn [snd undefined]. exact (proj2 (proj2 (Hfit Hfits))).
Qed.

(** X18.  The recorded main database name outlives both a failed wrapped
    open and the close of the handle.  For a name whose copies fit the
    blocks the host allocates for them: once a memory-backed open has
    got as far as the wrapped open, whatever status that returned, and the
    handle has been closed, an access query for the name still answers
    "exists" with [SQLITE_OK] and makes no call; nothing undefined has
    happened on the way. *)
Theorem access_after_open_and_close
  (zName : filename) (flags aflags : Z) (w : world) :
  no_nul (uri_path zName) -> name_fits host (uri_path zName) ->
  let '(rc, p, w1) := auroraOpen host zName flags w in
  calls w1 = (calls w ++ [sas_trace_start (fd p); xOpen zName flags])%list ->
  let '(rc2, w2) := auroraClose host p w1 in
  auroraAccess host (uri_path zName) aflags w2 = (SQLITE_OK, 1, w2) /\
  undefined w2 = undefined w.
Proof.
  intros Hnul Hfits.
  pose proof (auroraOpen_mainDbName host zName flags w) as H.
  destruct (auroraOpen host zName flags w) as [[rc p] w1].
  cbv zeta in H. destruct H as [H _]. intros Hc.
  destruct (H Hc Hfits) as [Hn Hu].
  assert (Hn2 : mainDbName (snd (auroraClose host p w1)) = Some (uri_path zName)
                /\ undefined (snd (auroraClose host p w1)) = undefined w).
  { unfold auroraClose. destruct (isAurMmap p =? 0); split; assumption. }
  destruct (auroraClose host p w1) as [rc2 w2]. cbn [snd] in Hn2.
  destruct Hn2 as [Hn2 Hu2]. split; [| exact Hu2].
  unfold auroraAccess, bind, get_mainDbName. rewrite Hn2.
  rewrite (proj2 (strcmp_eq0 _ _ Hnul Hnul) eq_refl). reflexivity.
Qed.

(** X19.  Only the last main database name is recorded.  For two names
    whose copies fit the blocks the host allocates for them: after two
    opens of which the second got as far as the wrapped open after
    starting the checkpoint session, an access query for the second name
    answers "exists" without a call, and a query for the first name, when
    it differs, is passed to the wrapped VFS; nothing undefined has
    happened on the way. *)
Theorem last_main_open_wins
  (zA zB : filename) (flagsA flagsB aflags : Z) (w : world) :
  no_nul (uri_path zA) -> no_nul (uri_path zB) -> uri_path zA <> uri_path zB ->
  name_fits host (uri_path zA) -> name_fits host (uri_path zB) ->
  let '(rcA, pA, w1) := auroraOpen host zA flagsA w in
  let '(rcB, pB, w2) := auroraOpen host zB flagsB w1 in
  calls w2 = (calls w1 ++ [sas_trace_start (fd pB); xOpen zB flagsB])%list ->
  undefined w2 = undefined w /\
  auroraAccess host (uri_path zB) aflags w2 = (SQLITE_OK, 1, w2) /\
  auroraAccess host (uri_path zA) aflags w2
  = (r_rc (host (calls w2) (xAccess (uri_path zA) aflags)),
     r_out (host (calls w2) (xAccess (uri_path zA) aflags)),
     log_call (xAccess (uri_path zA) aflags) w2).
Proof.
  intros HA HB Hne HfitsA Hfits.
  pose proof (auroraOpen_stays_defined zA flagsA w HfitsA) as HuA.
  destruct (auroraOpen host zA flagsA w) as [[rcA pA] w1]. cbn [snd] in HuA.
  pose proof (auroraOpen_mainDbName host zB flagsB w1) as H.
  destruct (auroraOpen host zB flagsB w1) as [[rcB pB] w2].
  cbv zeta in H. destruct H as [H _]. intros Hc.
  destruct (H Hc Hfits) as [Hn Hu].
  split; [rewrite Hu; exact HuA |].
  unfold auroraAccess, bind, get_mainDbName. rewrite Hn. split.
  - rewrite (proj2 (strcmp_eq0 _ _ HB HB) eq_refl). reflexivity.
  - destruct (Z.eqb_spec (strcmp (uri_path zA) (uri_path zB)) 0) as [E | _].
    + apply (strcmp_eq0 _ _ HA HB) in E. contradiction.
    + reflexivity.
Qed.

End SwitchProps.

Lemma wf_name_other : wf_filename name_other.
Proof.
  apply wf_filename_Forall. repeat constructor; unfold in_int64; simpl; lia.
Qed.

Lemma open_checkpoint_switches_witness :
  (let '(rc, p, w1) := auroraOpen host_ok name_other SQLITE_OPEN_MAIN_DB world0 in
   calls (snd (auroraWrite host_ok (set_szWritten 40 (set_sz 0 p))
                 (repeat x2a 60) 60 0 w1)) = calls w1 /\
   auroraSync host_ok (set_szWritten 40 (set_sz 0 p)) 0 w1
   = (SQLITE_OK, set_szWritten 40 (set_sz 0 p), w1)) /\
  (let '(rc, p, w1) := auroraOpen host_ok name_max SQLITE_OPEN_MAIN_DB world0 in
   calls (snd (auroraSync host_ok (set_szWritten 40 (set_sz 100 p)) 0 w1))
   = (calls w1 ++ [sas_trace_commit (fd p)])%list).
Proof.
  split.
  - pose proof (open_checkpoint_switches host_ok name_other SQLITE_OPEN_MAIN_DB
                  world0 ltac:(concrete) wf_name_other name_fits_other)
      as H.
    destruct (auroraOpen host_ok name_other SQLITE_OPEN_MAIN_DB world0)
      as [[rc p] w1].
    destruct H as (Hw & Hs & _). split.
    + apply Hw. left. reflexivity.
    + apply Hs. exists 0. split; [reflexivity | lia].
  - pose proof (open_checkpoint_switches host_ok name_max SQLITE_OPEN_MAIN_DB
                  world0 ltac:(concrete) wf_name_max name_fits_db)
      as H.
    destruct (auroraOpen host_ok name_max SQLITE_OPEN_MAIN_DB world0)
      as [[rc p] w1] eqn:E.
    assert (Hrc : rc = SQLITE_OK)
      by (vm_compute in E; injection E as <- _ _; reflexivity).
    destruct H as (_ & _ & Hon).
    apply Hon; [left; reflexivity | exact Hrc | lia].
Defined.

Lemma access_after_open_and_close_witness :
  let '(rc, p, w1) :=
    auroraOpen host_open_fails name_max SQLITE_OPEN_MAIN_DB world0 in
  rc = SQLITE_CANTOPEN /\
  let '(rc2, w2) := auroraClose host_open_fails p w1 in
  auroraAccess host_open_fails "/db" 0 w2 = (SQLITE_OK, 1, w2) /\
  undefined w2 = undefined world0.
Proof.
  pose proof (access_after_open_and_close host_open_fails name_max
                SQLITE_OPEN_MAIN_DB 0 world0
                ltac:(simpl; unfold uchar; simpl; repeat split; lia)
                name_fits_db_unopened) as H.
  hnf. hnf in H. split; [reflexivity | exact (H eq_refl)].
Defined.

Lemma last_main_open_wins_witness :
  let '(rcA, pA, w1) := auroraOpen host_ok name_max SQLITE_OPEN_MAIN_DB world0 in
  let '(rcB, pB, w2) := auroraOpen host_ok name_other SQLITE_OPEN_MAIN_DB w1 in
  undefined w2 = undefined world0 /\
  auroraAccess host_ok "/other" 0 w2 = (SQLITE_OK, 1, w2) /\
  auroraAccess host_ok "/db" 0 w2
  = (SQLITE_OK, 0, log_call (xAccess "/db" 0) w2).
Proof.
  pose proof (last_main_open_wins host_ok name_max name_other
                SQLITE_OPEN_MAIN_DB SQLITE_OPEN_MAIN_DB 0 world0
                ltac:(simpl; unfold uchar; simpl; repeat split; lia)
                ltac:(simpl; unfold uchar; simpl; repeat split; lia)
                ltac:(simpl; discriminate)
                name_fits_db name_fits_other) as H.
  hnf. hnf in H. exact (H eq_refl).
Defined.

(** ** Path names *)

Lemma substring_all (s : string) (n : nat) :
  (String.length s <= n)%nat -> substring 0 n s = s.
Proof.
  revert n. induction s as [| c s IH]; intros [| n] H; simpl in *;
    try reflexivity; try lia.
  f_equal. apply IH. lia.
Qed.

Lemma substring_cut (s : string) (n : nat) :
  (n <= String.length s)%nat ->
  String.length (substring 0 n s) = n /\ prefix (substring 0 n s) s = true.
Proof.
  revert n. induction s as [| c s IH]; intros [| n] H; simpl in *;
    try (split; reflexivity); try lia.
  destruct (IH n ltac:(lia)) as [Hl Hp]. split.
  - rewrite Hl. reflexivity.
  - destruct (ascii_dec c c) as [_ | Hc]; [exact Hp | contradiction].
Qed.

(** X22.  [auroraFullPathname] asks no one: it copies the name as it is,
    always with [SQLITE_OK].  A name shorter than the output buffer comes
    out unchanged (it is not made absolute); a longer one is cut to the
    first [nOut - 1] bytes, still with [SQLITE_OK]; with no room at all the
    buffer is left as it was. *)
Theorem auroraFullPathname_copies (zPath : string) (nOut : Z) (zOut : string) :
  let '(rc, out) := auroraFullPathname zPath nOut zOut in
  rc = SQLITE_OK /\
  (Z.of_nat (String.length zPath) < nOut -> out = zPath) /\
  (0 < nOut <= Z.of_nat (String.length zPath) ->
   String.length out = Z.to_nat (nOut - 1) /\ prefix out zPath = true /\
   out <> zPath) /\
  (nOut <= 0 -> out = zOut).
Proof.
  unfold auroraFullPathname, sqlite3_snprintf_s.
  split; [reflexivity | split; [| split]].
  - intros H. destruct (Z.leb_spec nOut 0); [lia |].
    apply substring_all. lia.
  - intros H. destruct (Z.leb_spec nOut 0); [lia |].
    destruct (substring_cut zPath (Z.to_nat (nOut - 1)) ltac:(lia)) as [Hl Hp].
    repeat split; try assumption.
    intros E. rewrite E in Hl. lia.
  - intros H. destruct (Z.leb_spec nOut 0); [reflexivity | lia].
Qed.

Lemma auroraFullPathname_copies_witness :
  snd (auroraFullPathname "db/main.db" 1024 "") = "db/main.db" /\
  String.length (snd (auroraFullPathname "db/main.db" 4 "")) = 3%nat.
Proof.
  pose proof (auroraFullPathname_copies "db/main.db" 1024 "") as H1.
  pose proof (auroraFullPathname_copies "db/main.db" 4 "") as H2.
  destruct (auroraFullPathname "db/main.db" 1024 "") as [rc1 o1].
  destruct (auroraFullPathname "db/main.db" 4 "") as [rc2 o2].
  destruct H1 as (_ & H1 & _). destruct H2 as (_ & _ & H2 & _).
  split.
  - apply H1. simpl. lia.
  - apply H2. simpl. lia.
Defined.

(** ** Registration *)

(** X21.  [sqlite3_auroravfs_init] never returns plain [SQLITE_OK].
    Without a default VFS it returns [SQLITE_ERROR] and leaves
    [aurora_vfs] alone.  Otherwise [aurora_vfs] wraps the default VFS and
    asks for file objects as large as the wrapped one plus its own header,
    under its own name; a registration answered with [SQLITE_OK] gives
    [SQLITE_OK_LOAD_PERMANENTLY], any other answer is returned as it is. *)
Theorem sqlite3_auroravfs_init_outcomes
  (sizeof_AuroraFile : Z) (sqlite3_vfs_find : option sqlite3_vfs)
  (sqlite3_vfs_register : sqlite3_vfs -> Z -> Z) (v : sqlite3_vfs) :
  let '(rc, v') :=
    sqlite3_auroravfs_init sizeof_AuroraFile sqlite3_vfs_find
      sqlite3_vfs_register v in
  rc <> SQLITE_OK /\
  (sqlite3_vfs_find = None -> rc = SQLITE_ERROR /\ v' = v) /\
  (forall pOrig, sqlite3_vfs_find = Some pOrig ->
     vfs_pAppData v' = Some pOrig /\ vfs_zName v' = vfs_zName v /\
     (0 <= vfs_szOsFile pOrig + sizeof_AuroraFile < 2 ^ 31 ->
      vfs_szOsFile v' = vfs_szOsFile pOrig + sizeof_AuroraFile) /\
     (sqlite3_vfs_register v' 1 = SQLITE_OK ->
      rc = SQLITE_OK_LOAD_PERMANENTLY) /\
     (sqlite3_vfs_register v' 1 <> SQLITE_OK ->
      rc = sqlite3_vfs_register v' 1)).
Proof.
  unfold sqlite3_auroravfs_init.
  destruct sqlite3_vfs_find as [pOrig |].
  - cbv zeta.
    set (v' := set_vfs_szOsFile _ (set_vfs_pAppData (Some pOrig) v)).
    split; [| split].
    + destruct (Z.eqb_spec (sqlite3_vfs_register v' 1) SQLITE_OK) as [E | E];
        [discriminate | exact E].
    + intros H. discriminate H.
    + intros o H. injection H as <-.
      split; [destruct v; reflexivity |].
      split; [destruct v; reflexivity |].
      split; [| split].
      * intros Hr. unfold v'. destruct v. cbn [set_vfs_pAppData set_vfs_szOsFile
                                              vfs_szOsFile].
        rewrite uint64_small by lia.
        apply sint32_small. unfold in_int32. lia.
      * intros E. rewrite E. reflexivity.
      * intros E.
        destruct (Z.eqb_spec (sqlite3_vfs_register v' 1) SQLITE_OK);
          [contradiction | reflexivity].
  - split; [discriminate | split].
    + intros _. split; reflexivity.
    + intros o H. discriminate H.
Qed.

Lemma sqlite3_auroravfs_init_outcomes_witness :
  let '(rc, v') :=
    sqlite3_auroravfs_init 80 (Some unix_vfs) (fun _ _ => SQLITE_OK) aurora_vfs in
  rc = SQLITE_OK_LOAD_PERMANENTLY /\ vfs_szOsFile v' = 200 /\
  vfs_pAppData v' = Some unix_vfs.
Proof.
  pose proof (sqlite3_auroravfs_init_outcomes 80 (Some unix_vfs)
                (fun _ _ => SQLITE_OK) aurora_vfs) as H.
  destruct (sqlite3_auroravfs_init 80 (Some unix_vfs) (fun _ _ => SQLITE_OK)
              aurora_vfs) as [rc v'].
  destruct H as (_ & _ & H).
  destruct (H unix_vfs eq_refl) as (Ha & _ & Hs & Hok & _).
  split; [exact (Hok eq_refl) | split; [| exact Ha]].
  apply Hs. simpl. lia.
Defined.
